(** * fasthttp: a shallow embedding of the parallel range downloader

    The development follows [fasthttp.go]: the HEAD probe
    ([getContentLength]), the in-memory sink ([bufferWriterAt.WriteAt]),
    the range planner and joiner ([download]), the per-range fetcher
    ([getRange]) and the in-memory entry point ([Get]).

    Conventions.
    - Go's [int64], [int] (64-bit platform) and [byte] are integers in [Z];
      the arithmetic of [int64] wraps, see [Int64].
    - A Go [error] is its message; the [nil] error is [None].
    - A call can return, panic (a failed bounds check) or, for the two
      unbounded [for] loops, run out of the fuel given to the model. *)

From Stdlib Require Import ZArith Lia String Ascii List Bool.
From stdpp Require Import base tactics option list numbers strings pretty.
Import ListNotations.

Local Open Scope Z_scope.

(** ** Machine integers *)

Module Int64.
Definition min_int : Z := - 2 ^ 63.
Definition max_int : Z := 2 ^ 63 - 1.

Definition in_range (z : Z) : Prop := min_int <= z <= max_int.

(** Two's complement wrap-around of a mathematical integer. *)
Definition wrap (z : Z) : Z := (z + 2 ^ 63) mod 2 ^ 64 - 2 ^ 63.

Definition add (a b : Z) : Z := wrap (a + b).
Definition sub (a b : Z) : Z := wrap (a - b).
(** Go's [/] and [%] truncate towards zero; [download] divides by a thread
    count that is at least 2. *)
Definition quot (a b : Z) : Z := wrap (Z.quot a b).
Definition rem (a b : Z) : Z := Z.rem a b.
End Int64.

(** [math.MaxInt32] *)
Definition MaxInt32 : Z := 2 ^ 31 - 1.

(** ** Outcomes of a call *)

Inductive outcome (A : Type) : Type :=
| Returned (a : A)
| Panicked
| OutOfFuel.
Arguments Returned {A} a.
Arguments Panicked {A}.
Arguments OutOfFuel {A}.

Definition obind {A B} (m : outcome A) (k : A -> outcome B) : outcome B :=
  match m with
  | Returned a => k a
  | Panicked => Panicked
  | OutOfFuel => OutOfFuel
  end.

(** A Go [error] value; [None] is [nil]. *)
Definition error : Type := string.

(** ** The range plan of [download]

    A range is the pair [(start, end)] handed to [getRange]; both ends are
    inclusive and [end < start] asks for the whole resource. *)

Record Range : Type := mkRange { r_start : Z; r_end : Z }.

Definition is_sentinel (r : Range) : bool := r_end r <? r_start r.

(** The [for offset < length] loop of [download] (lines 172-182): the list
    of [(start, end)] pairs it spawns a fetcher for, in spawn order.
    [remainder] is reset to 0 after the first turn. *)
Fixpoint spawn_loop (fuel : nat) (offset length blocksize remainder : Z)
  : outcome (list Range) :=
  match fuel with
  | O => OutOfFuel
  | S fuel' =>
      if offset <? length then
        let start := offset in
        let end_ := Int64.sub (Int64.add (Int64.add start blocksize) remainder) 1 in
        obind (spawn_loop fuel' (Int64.add end_ 1) length blocksize 0)
              (fun rs => Returned (mkRange start end_ :: rs))
      else Returned []
  end.

(** What [download] decides to do before any request is made
    (lines 135-182). *)
Inductive dispatch : Type :=
| Refuse                      (* threads == 0: an error, no request *)
| Direct (r : Range)          (* one synchronous call of getRange *)
| Spawn (rs : list Range).    (* one goroutine per range *)

Definition plan (fuel : nat) (threads length : Z) : outcome dispatch :=
  if threads =? 0 then Returned Refuse
  else
    let threads := if length <? threads then 1 else threads in
    if threads =? 1 then Returned (Direct (mkRange 0 (-1)))
    else
      let blocksize := Int64.quot length threads in
      let remainder := Int64.rem length threads in
      obind (spawn_loop fuel 0 length blocksize remainder)
            (fun rs => Returned (Spawn rs)).

Definition ranges_of (d : dispatch) : list Range :=
  match d with
  | Refuse => []
  | Direct r => [r]
  | Spawn rs => rs
  end.

(** *** Vocabulary for statements about plans *)

(** Number of bytes of a proper range. *)
Definition span_len (r : Range) : Z := r_end r - r_start r + 1.

(** Byte [i] of a resource of [L] bytes is asked for by range [r]: a proper
    range asks for [start..end], the sentinel for the whole resource. *)
Definition covers (L : Z) (r : Range) (i : Z) : bool :=
  if is_sentinel r then (0 <=? i) && (i <? L)
  else (r_start r <=? i) && (i <=? r_end r).

(** [rs] is a chain of non-empty proper ranges, each starting right after
    the previous one, from offset [o] up to (excluding) [L]. *)
Fixpoint tiles (o L : Z) (rs : list Range) : bool :=
  match rs with
  | [] => o =? L
  | r :: rs' => (r_start r =? o) && (r_start r <=? r_end r) && tiles (r_end r + 1) L rs'
  end.

Definition total_len (rs : list Range) : Z :=
  fold_right (fun r acc => span_len r + acc) 0 rs.

(** [n] blocks of [b] bytes starting at [o]. *)
Fixpoint blocks (o b : Z) (n : nat) : list Range :=
  match n with
  | O => []
  | S n' => mkRange o (o + b - 1) :: blocks (o + b) b n'
  end.

(** ** The HTTP collaborator

    [net/http] is outside the repository.  A request is its method, URL
    and header lines; the network is a function [Do] from a request to what
    the client gets back.  A response body is the sequence of results of
    the successive [Read] calls made on it: the bytes placed in the
    256-byte payload buffer and the error returned with them. *)

Record Request : Type := mkRequest {
  Method : string;
  URL : string;
  ReqHeader : list (string * string)
}.

Definition Reader : Type := nat -> list Byte.byte * option error.

Record Response : Type := mkResponse {
  StatusCode : Z;
  Header : list (string * string);
  ContentLength : Z;
  Body : Reader
}.

Inductive reply : Type :=
| Failed (err : error)
| Replied (resp : Response).

(** [Header.Add] and [Header.Get] (the first value of the key, or the
    empty string). *)
Definition header_add (req : Request) (key value : string) : Request :=
  mkRequest (Method req) (URL req) (ReqHeader req ++ [(key, value)]).

Fixpoint header_get (h : list (string * string)) (key : string) : string :=
  match h with
  | [] => EmptyString
  | (k, v) :: h' => if String.eqb k key then v else header_get h' key
  end.

(** [io.EOF] *)
Definition EOF : error := "EOF".

(** The double quote of ["%s"] in a format string. *)
Definition dquote : string := String (ascii_of_nat 34) EmptyString.

(** ** Computations that talk to the network

    The state threaded through a call is the list of requests sent so far,
    oldest first. *)

Definition M (A : Type) : Type := list Request -> outcome (A * list Request).

Definition ret {A} (a : A) : M A := fun sent => Returned (a, sent).

Definition bind {A B} (m : M A) (k : A -> M B) : M B :=
  fun sent =>
    match m sent with
    | Returned (a, sent') => k a sent'
    | Panicked => Panicked
    | OutOfFuel => OutOfFuel
    end.

Definition lift {A} (o : outcome A) : M A :=
  fun sent => obind o (fun a => Returned (a, sent)).

Notation "'let*' x ':=' m 'in' k" := (bind m (fun x => k))
  (at level 10, x pattern, m at level 100, k at level 200).

(** ** Sinks: [io.WriterAt]

    A write gives back the sink after the call and the pair Go returns;
    [None] is a run-time panic inside the sink. *)

Class WriterAt (W : Type) : Type :=
  WriteAt : W -> list Byte.byte -> Z -> option (W * (Z * option error)).

(** A Go slice of bytes: its backing array from the slice's first element
    on (so [cap] is the array's length) and its length. *)
Record slice : Type := mkSlice { backing : list Byte.byte; slen : nat }.

Definition cap (s : slice) : Z := Z.of_nat (List.length (backing s)).
Definition len (s : slice) : Z := Z.of_nat (slen s).

(** [make([]byte, n, c)]: a zeroed array of [c] bytes, [n] of them visible. *)
Definition make (n c : Z) : slice :=
  mkSlice (replicate (Z.to_nat c) Byte.x00) (Z.to_nat n).

(** [s[0:hi]]; the bounds check is against the capacity. *)
Definition reslice (s : slice) (hi : Z) : option slice :=
  if (0 <=? hi) && (hi <=? cap s)
  then Some (mkSlice (backing s) (Z.to_nat hi))
  else None.

(** [s[i] = b]; the bounds check is against the length. *)
Definition store (s : slice) (i : Z) (b : Byte.byte) : option slice :=
  if (0 <=? i) && (i <? len s)
  then Some (mkSlice (<[Z.to_nat i := b]> (backing s)) (slen s))
  else None.

Module bufferWriterAt.
Record t : Type := mk { buffer : slice }.

(** [for _, b := range p { w.buffer[off] = b; off++ }] *)
Fixpoint copy (buf : slice) (p : list Byte.byte) (off : Z) : option slice :=
  match p with
  | [] => Some buf
  | b :: p' =>
      match store buf off b with
      | Some buf' => copy buf' p' (Int64.add off 1)
      | None => None
      end
  end.

(** Lines 119-131. *)
Definition WriteAt (w : t) (p : list Byte.byte) (off : Z)
  : option (t * (Z * option error)) :=
  let n := Z.of_nat (List.length p) in
  match (if (off <? 0) || (Int64.add n off >? len (buffer w))
         then reslice (buffer w) (Int64.add n off)
         else Some (buffer w)) with
  | Some buf =>
      match copy buf p off with
      | Some buf' => Some (mk buf', (n, None))
      | None => None
      end
  | None => None
  end.
End bufferWriterAt.

#[export] Instance bufferWriterAt_WriterAt : WriterAt bufferWriterAt.t :=
  bufferWriterAt.WriteAt.

(** ** Scheduling of the fetcher goroutines

    The fetchers of one [download] run concurrently.  The model runs each
    fetcher as a unit, in the order in which they hand their result to the
    [errors] channel; [picks] chooses, at each turn, which of the fetchers
    still running is the next to finish.  The goroutine that drains the
    channel writes [err] without synchronisation with the [return err] of
    [download]: its last write may or may not be seen. *)

Record schedule : Type := mkSchedule {
  picks : list nat;
  last_write_seen : bool
}.

Fixpoint arrival {A} (n : nat) (picks : list nat) (pending : list A) : list A :=
  match n with
  | O => []
  | S n' =>
      let k := (hd O picks `mod` List.length pending)%nat in
      match pending !! k with
      | Some a => a :: arrival n' (tl picks) (delete k pending)
      | None => []
      end
  end.

(** [for e := range errors { err = e }], from [var err error]. *)
Definition drain (received : list (option error)) : option error :=
  fold_left (fun _ e => e) received None.

(** ** The engine *)

Section Engine.
Context {W : Type} `{WriterAt W}.

(** [http.Head] and [http.Client.Do]. *)
Variable Do : Request -> reply.

Definition send (req : Request) : M reply :=
  fun sent => Returned (Do req, sent ++ [req]).

(** Lines 80-108. *)
Definition getContentLength (u : string) : M (Z * option error) :=
  let* r := send (mkRequest "HEAD" u []) in
  match r with
  | Failed err => ret (0, Some err)
  | Replied resp =>
      if negb (StatusCode resp =? 200) then
        ret (0, Some ("bad response code: " +:+ pretty (StatusCode resp)))
      else if negb (String.eqb (header_get (Header resp) "Accept-Ranges") "bytes") then
        ret (0, None)
      else if ContentLength resp <? 0 then
        ret (0, None)
      else
        ret (ContentLength resp, None)
  end.

(** The request built at lines 203-208. *)
Definition range_request (u : string) (start end_ : Z) : Request :=
  let req := mkRequest "GET" u [] in
  if end_ >=? start
  then header_add req "Range" ("bytes=" +:+ pretty start +:+ "-" +:+ pretty end_)
  else req.

(** The copy loop, lines 235-247: [i] counts the reads made so far.  The
    result of [f.WriteAt] is dropped; any non-nil read error ends the
    loop. *)
Fixpoint copy_body (fuel : nat) (body : Reader) (i : nat) (f : W) (start : Z)
  : outcome W :=
  match fuel with
  | O => OutOfFuel
  | S fuel' =>
      let '(payload, eof) := body i in
      match WriteAt f payload start with
      | None => Panicked
      | Some (f', _) =>
          let start' := Int64.add start (Z.of_nat (List.length payload)) in
          match eof with
          | None => copy_body fuel' body (S i) f' start'
          | Some _ => Returned f'
          end
      end
  end.

(** Lines 201-250. *)
Definition getRange (fuel : nat) (f : W) (u : string) (start end_ : Z)
  : M (W * option error) :=
  let req := range_request u start end_ in
  let* r := send req in
  match r with
  | Failed err => ret (f, Some err)
  | Replied resp =>
      let stream :=
        let* f' := lift (copy_body fuel (Body resp) O f start) in
        ret (f', None) in
      if end_ <? start then
        if negb (StatusCode resp =? 200) then
          ret (f, Some ("bad response code: " +:+ pretty (StatusCode resp)))
        else stream
      else
        if negb (StatusCode resp =? 206) then
          ret (f, Some ("bad response code: " +:+ pretty (StatusCode resp)
                        +:+ " while reading bytes " +:+ pretty start
                        +:+ " through " +:+ pretty end_))
        else stream
  end.

(** The fetcher goroutines, in the order they finish. *)
Fixpoint run_fetchers (fuel : nat) (f : W) (u : string) (rs : list Range)
  : M (W * list (option error)) :=
  match rs with
  | [] => ret (f, [])
  | r :: rs' =>
      let* (f1, e) := getRange fuel f u (r_start r) (r_end r) in
      let* (f2, es) := run_fetchers fuel f1 u rs' in
      ret (f2, e :: es)
  end.

(** Lines 133-195. *)
Definition download (fuel : nat) (sched : schedule) (f : W) (u : string)
    (threads length : Z) : M (W * option error) :=
  let* d := lift (plan fuel threads length) in
  match d with
  | Refuse =>
      ret (f, Some ("cannot download " +:+ dquote +:+ u +:+ dquote
                    +:+ " download using " +:+ pretty threads +:+ " threads"))
  | Direct r => getRange fuel f u (r_start r) (r_end r)
  | Spawn rs =>
      let* (f', received) :=
        run_fetchers fuel f u (arrival (List.length rs) (picks sched) rs) in
      ret (f', drain (if last_write_seen sched then received
                      else removelast received))
  end.
End Engine.

(** Lines 26-47.  The slice returned is [None] when it is nil. *)
Definition Get (Do : Request -> reply) (fuel : nat) (sched : schedule)
    (u : string) (threads : Z) : M (option slice * option error) :=
  let* (length, err) := getContentLength Do u in
  match err with
  | Some e => ret (None, Some e)
  | None =>
      let f :=
        if length =? 0
        then bufferWriterAt.mk (make 0 MaxInt32)
        else bufferWriterAt.mk (make length length) in
      let* (f', err) := download Do fuel sched f u threads length in
      ret (Some (bufferWriterAt.buffer f'), err)
  end.

(** ** Concrete servers used in the examples below *)

Module Examples.
Definition one_byte (b : Byte.byte) : Reader := fun _ => ([b], Some EOF).

(** A body whose second read fails with an error that is not [io.EOF]. *)
Definition broken_body : Reader :=
  fun i => match i with
           | O => ([Byte.x01; Byte.x02], None)
           | _ => ([], Some "unexpected EOF")
           end.

Definition header_value (req : Request) : string :=
  header_get (ReqHeader req) "Range".

(** A three-byte resource on a server that honours ranges, except that
    the range [0-0] is answered with status 500. *)
Definition first_range_fails (req : Request) : reply :=
  if String.eqb (Method req) "HEAD" then
    Replied (mkResponse 200 [("Accept-Ranges", "bytes")] 3 (one_byte Byte.x00))
  else if String.eqb (header_value req) "bytes=0-0" then
    Replied (mkResponse 500 [] 0 (one_byte Byte.x00))
  else
    Replied (mkResponse 206 [] 1 (one_byte Byte.x07)).

(** A two-byte resource; the range [1-1] is answered with status 500. *)
Definition last_range_fails (req : Request) : reply :=
  if String.eqb (Method req) "HEAD" then
    Replied (mkResponse 200 [("Accept-Ranges", "bytes")] 2 (one_byte Byte.x00))
  else if String.eqb (header_value req) "bytes=1-1" then
    Replied (mkResponse 500 [] 0 (one_byte Byte.x00))
  else
    Replied (mkResponse 206 [] 1 (one_byte Byte.x07)).

(** A server whose body breaks in the middle of the transfer. *)
Definition breaks_mid_stream (req : Request) : reply :=
  Replied (mkResponse 200 [] 4 broken_body).

(** Servers for the probe: not found, no range support, no length. *)
Definition not_found (req : Request) : reply :=
  Replied (mkResponse 404 [] 0 (one_byte Byte.x00)).
Definition no_ranges (req : Request) : reply :=
  Replied (mkResponse 200 [] 1000 (one_byte Byte.x00)).
Definition unreachable (req : Request) : reply := Failed "no route to host".

Definition in_order (seen : bool) : schedule := mkSchedule [] seen.
End Examples.

(** ** Vocabulary for statements about transfers *)

(** The bytes handed out by the reads [i], ..., [i + k] of a body. *)
Fixpoint chunks_from (body : Reader) (i k : nat) : list Byte.byte :=
  match k with
  | O => fst (body i)
  | S k' => fst (body i) ++ chunks_from body (S i) k'
  end.

(** Read [i + k] is the first read from [i] on that returns an error. *)
Definition ends_at (body : Reader) (i k : nat) : Prop :=
  (forall j, (i <= j < i + k)%nat -> snd (body j) = None) /\
  snd (body (i + k)%nat) <> None.

(** The body hands out exactly [bs] and then reports an error ([io.EOF] or
    any other), all within fewer than [fuel] reads. *)
Definition delivers (fuel : nat) (body : Reader) (bs : list Byte.byte) : Prop :=
  exists k, (k < fuel)%nat /\ ends_at body O k /\ chunks_from body O k = bs.

(** Array [b'] is array [b] with [bs] stored from index [off] on. *)
Definition written_at (b b' : list Byte.byte) (off : nat) (bs : list Byte.byte) : Prop :=
  List.length b' = List.length b /\
  (forall i : nat, (i < List.length bs)%nat -> b' !! (off + i)%nat = bs !! i) /\
  (forall j : nat, (j < off \/ off + List.length bs <= j)%nat -> b' !! j = b !! j).

(** Bytes [s..e] of a resource. *)
Definition slice_of (data : list Byte.byte) (s e : Z) : list Byte.byte :=
  take (Z.to_nat (e - s + 1)) (drop (Z.to_nat s) data).

(** The server answers every proper range of the resource [data] with
    status 206 and exactly the bytes asked for. *)
Definition honours_ranges (Do : Request -> reply) (fuel : nat) (u : string)
    (data : list Byte.byte) : Prop :=
  forall s e, 0 <= s <= e -> e < Z.of_nat (List.length data) ->
    exists resp,
      Do (mkRequest "GET" u [("Range", "bytes=" +:+ pretty s +:+ "-" +:+ pretty e)])
        = Replied resp /\
      StatusCode resp = 206 /\
      delivers fuel (Body resp) (slice_of data s e).

(** The server answers a GET without headers with status 200 and the whole
    resource. *)
Definition serves_whole (Do : Request -> reply) (fuel : nat) (u : string)
    (data : list Byte.byte) : Prop :=
  exists resp,
    Do (mkRequest "GET" u []) = Replied resp /\
    StatusCode resp = 200 /\
    delivers fuel (Body resp) data.

(** ** Saving to a file, and the go-getter driver

    [os] and [filepath] are outside the repository: [Dir], [MkdirAll] and
    [Create] stand for [filepath.Dir], [os.MkdirAll(_, 0755)] and
    [os.Create]; an opened file is a sink [W].  [Save] gives back, with its
    Go result, the calls it made to the file system and the file as the
    download left it; the deferred [f.Close()] is not part of the model. *)

Inductive fs_call : Type :=
| CallMkdirAll (dir : string)
| CallCreate (path : string).

Section Saving.
Context {W : Type} `{WriterAt W}.
Variable Do : Request -> reply.
Variable Dir : string -> string.
Variable MkdirAll : string -> option error.
Variable Create : string -> error + W.

(** [fasthttp.go], lines 54-77. *)
Definition Save (fuel : nat) (sched : schedule) (u path : string) (threads : Z)
  : M (list fs_call * option W * option error) :=
  let* (length, err) := getContentLength Do u in
  match err with
  | Some e => ret ([], None, Some e)
  | None =>
      match MkdirAll (Dir path) with
      | Some e => ret ([CallMkdirAll (Dir path)], None, Some e)
      | None =>
          match Create path with
          | inl e => ret ([CallMkdirAll (Dir path); CallCreate path], None, Some e)
          | inr f =>
              let* (f', err) := download Do fuel sched f u threads length in
              ret ([CallMkdirAll (Dir path); CallCreate path], Some f', err)
          end
      end
  end.

(** [strconv.ParseUint(s, 10, 8)]: the value and the error. *)
Variable ParseUint : string -> Z * option error.

(** The thread count of [GetFile], [go-getter/get_fasthttp.go] lines
    86-95, before its conversion to [byte]. *)
Definition fragment_threads (fragment : string) : Z :=
  let '(threads, err) := ParseUint fragment in
  let threads := match err with Some _ => 1 | None => threads end in
  let threads := if threads >? 255 then 1 else threads in
  threads.

(** [go-getter/get_fasthttp.go], lines 83-97; [u] is [u.String()] and
    [fragment] is [u.Fragment]; [byte(threads)] keeps the low eight bits. *)
Definition GetFile (fuel : nat) (sched : schedule) (dst u fragment : string)
  : M (list fs_call * option W * option error) :=
  Save fuel sched u dst (fragment_threads fragment mod 256).
End Saving.

(** ** More servers for the examples *)

Module Served.
Definition two_bytes : list Byte.byte := [Byte.x0a; Byte.x0b].

Definition at_once (bs : list Byte.byte) : Reader := fun _ => (bs, Some EOF).

Definition in_two_reads : Reader :=
  fun i => match i with
           | O => ([Byte.x0a], None)
           | _ => ([Byte.x0b], Some EOF)
           end.

Definition ranged (req : Request) : reply :=
  let v := header_get (ReqHeader req) "Range" in
  if String.eqb v "bytes=0-0" then Replied (mkResponse 206 [] 1 (at_once [Byte.x0a]))
  else if String.eqb v "bytes=1-1" then Replied (mkResponse 206 [] 1 (at_once [Byte.x0b]))
  else if String.eqb v "bytes=0-1" then Replied (mkResponse 206 [] 2 in_two_reads)
  else Replied (mkResponse 200 [] 2 in_two_reads).

(** A two-byte resource on a server that honours byte ranges. *)
Definition with_ranges (req : Request) : reply :=
  if String.eqb (Method req) "HEAD" then
    Replied (mkResponse 200 [("Accept-Ranges", "bytes")] 2 (at_once []))
  else ranged req.

(** The same resource on a server that does not advertise byte ranges. *)
Definition without_ranges (req : Request) : reply :=
  if String.eqb (Method req) "HEAD" then
    Replied (mkResponse 200 [] 2 (at_once []))
  else Replied (mkResponse 200 [] 2 in_two_reads).

(** A server without byte ranges that refuses the GET. *)
Definition get_forbidden (req : Request) : reply :=
  if String.eqb (Method req) "HEAD" then
    Replied (mkResponse 200 [] 2 (at_once []))
  else Replied (mkResponse 403 [] 0 (at_once [])).

(** A server that announces two bytes and sends three. *)
Definition sends_too_much (req : Request) : reply :=
  if String.eqb (Method req) "HEAD" then
    Replied (mkResponse 200 [("Accept-Ranges", "bytes")] 2 (at_once []))
  else Replied (mkResponse 200 [] 2 (at_once [Byte.x0a; Byte.x0b; Byte.x0c])).

(** A file system whose files are in-memory buffers of four bytes. *)
Definition dir_of (path : string) : string := "d".
Definition mkdir_ok (dir : string) : option error := None.
Definition mkdir_denied (dir : string) : option error := Some "permission denied".
Definition create_ok (path : string) : error + bufferWriterAt.t :=
  inr (bufferWriterAt.mk (make 0 4)).

Definition parse_fails (s : string) : Z * option error :=
  (0, Some "invalid syntax").
Definition parse_four (s : string) : Z * option error := (4, None).
End Served.

(** * Properties *)

(** ** Machine integers *)

Lemma wrap_id z : Int64.in_range z -> Int64.wrap z = z.
Proof.
  unfold Int64.in_range, Int64.wrap, Int64.min_int, Int64.max_int. intros Hz.
  rewrite Z.mod_small by lia. lia.
Qed.

Lemma add_id a b : Int64.in_range (a + b) -> Int64.add a b = a + b.
Proof. apply wrap_id. Qed.

Lemma sub_id a b : Int64.in_range (a - b) -> Int64.sub a b = a - b.
Proof. apply wrap_id. Qed.

Lemma quot_nonneg a b :
  0 <= a <= Int64.max_int -> 0 < b -> Int64.quot a b = a / b.
Proof.
  intros Ha Hb. unfold Int64.quot. rewrite Z.quot_div_nonneg by lia.
  apply wrap_id. unfold Int64.in_range, Int64.min_int, Int64.max_int in *.
  assert (0 <= a / b) by (apply Z.div_pos; lia).
  assert (a / b <= a) by (apply Z.div_le_upper_bound; nia).
  lia.
Qed.

Lemma rem_nonneg a b : 0 <= a -> 0 < b -> Int64.rem a b = a mod b.
Proof. intros. unfold Int64.rem. apply Z.rem_mod_nonneg; lia. Qed.

Ltac int64 :=
  unfold Int64.in_range, Int64.min_int, Int64.max_int in *; lia.

(** ** The range plan *)

Lemma spawn_loop_blocks b (Hb : 1 <= b) :
  forall (n fuel : nat) (o L : Z),
    0 <= o -> L = o + b * Z.of_nat n -> L <= Int64.max_int -> (n < fuel)%nat ->
    spawn_loop fuel o L b 0 = Returned (blocks o b n).
Proof.
  induction n as [|n IH]; intros fuel o L Ho HL Hmax Hfuel;
    (destruct fuel as [|fuel]; [lia|]); simpl.
  - replace (o <? L) with false by (symmetry; apply Z.ltb_ge; lia). reflexivity.
  - replace (o <? L) with true by (symmetry; apply Z.ltb_lt; nia).
    assert (Hob : o + b <= L) by nia.
    rewrite (add_id o b) by int64.
    rewrite (add_id (o + b) 0) by int64.
    rewrite (sub_id (o + b + 0) 1) by int64.
    rewrite (add_id (o + b + 0 - 1) 1) by int64.
    replace (o + b + 0 - 1 + 1) with (o + b) by lia.
    rewrite (IH fuel (o + b) L) by lia. simpl.
    do 3 f_equal. lia.
Qed.

(** The closed form of the plan in the multi-range case. *)
Lemma plan_multi (N L : Z) (fuel : nat) :
  2 <= N <= L -> L <= Int64.max_int -> (Z.to_nat N < fuel)%nat ->
  plan fuel N L =
    Returned (Spawn (mkRange 0 (L / N + L mod N - 1)
                       :: blocks (L / N + L mod N) (L / N) (Z.to_nat N - 1))).
Proof.
  intros HN Hmax Hfuel. unfold plan.
  replace (N =? 0) with false by (symmetry; apply Z.eqb_neq; lia).
  replace (L <? N) with false by (symmetry; apply Z.ltb_ge; lia).
  replace (N =? 1) with false by (symmetry; apply Z.eqb_neq; lia).
  rewrite quot_nonneg, rem_nonneg by lia.
  pose proof (Z.div_mod L N ltac:(lia)) as Hdm.
  pose proof (Z.mod_pos_bound L N ltac:(lia)) as Hm.
  assert (Hb : 1 <= L / N) by (apply Z.div_le_lower_bound; lia).
  destruct fuel as [|fuel]; [lia|]. cbn [spawn_loop obind].
  replace (0 <? L) with true by (symmetry; apply Z.ltb_lt; lia).
  assert (L / N + L mod N <= L) by nia.
  rewrite (add_id 0 (L / N)) by int64.
  rewrite (add_id (0 + L / N) (L mod N)) by int64.
  rewrite (sub_id (0 + L / N + L mod N) 1) by int64.
  rewrite (add_id (0 + L / N + L mod N - 1) 1) by int64.
  replace (0 + L / N + L mod N - 1 + 1) with (L / N + L mod N) by lia.
  rewrite (spawn_loop_blocks (L / N) Hb (Z.to_nat N - 1) fuel (L / N + L mod N) L);
    [reflexivity | lia | | lia | lia].
  rewrite Nat2Z.inj_sub, Z2Nat.id by lia. simpl Z.of_nat. nia.
Qed.

(** The plan when one request is enough. *)
Lemma plan_single (N L : Z) (fuel : nat) :
  1 <= N -> L < N \/ N = 1 ->
  plan fuel N L = Returned (Direct (mkRange 0 (-1))).
Proof.
  intros HN Hcase. unfold plan.
  replace (N =? 0) with false by (symmetry; apply Z.eqb_neq; lia).
  destruct (Z.ltb_spec L N); [reflexivity|].
  replace (N =? 1) with true by (symmetry; apply Z.eqb_eq; lia). reflexivity.
Qed.

Lemma blocks_length o b n : List.length (blocks o b n) = n.
Proof. revert o. induction n; intros; simpl; [|rewrite IHn]; reflexivity. Qed.

Lemma blocks_span o b n : Forall (fun r => span_len r = b) (blocks o b n).
Proof.
  revert o. induction n; intros; simpl; constructor; [|apply IHn].
  unfold span_len. simpl. lia.
Qed.

Lemma blocks_tiles b (Hb : 1 <= b) n :
  forall o, tiles o (o + b * Z.of_nat n) (blocks o b n) = true.
Proof.
  induction n as [|n IH]; intros o; simpl tiles.
  - apply Z.eqb_eq. lia.
  - simpl r_start; simpl r_end.
    rewrite Z.eqb_refl. replace (o <=? o + b - 1) with true
      by (symmetry; apply Z.leb_le; lia).
    simpl. replace (o + b - 1 + 1) with (o + b) by lia.
    replace (o + b * Z.of_nat (S n)) with (o + b + b * Z.of_nat n) by lia.
    apply IH.
Qed.

Lemma blocks_total o b n : total_len (blocks o b n) = b * Z.of_nat n.
Proof.
  revert o. induction n as [|n IH]; intros o; simpl; [lia|].
  unfold total_len in IH. rewrite IH. unfold span_len. simpl. lia.
Qed.

(** What a tiling says about each of its ranges, and about the bytes that
    are asked for. *)
Lemma tiles_bounds rs : forall o L j r,
  tiles o L rs = true -> rs !! j = Some r ->
  o <= r_start r /\ r_start r <= r_end r /\ r_end r < L.
Proof.
  induction rs as [|r0 rs IH]; intros o L j r Ht Hj; [discriminate|].
  simpl in Ht. apply andb_true_iff in Ht as [Ht Hrest].
  apply andb_true_iff in Ht as [Hs Hle].
  apply Z.eqb_eq in Hs. apply Z.leb_le in Hle.
  assert (Hend : forall rs' o', tiles o' L rs' = true -> o' <= L).
  { clear. induction rs' as [|r' rs' IH']; simpl; intros o' Ht.
    - apply Z.eqb_eq in Ht. lia.
    - apply andb_true_iff in Ht as [Ht Hrest].
      apply andb_true_iff in Ht as [Hs Hle].
      apply Z.eqb_eq in Hs. apply Z.leb_le in Hle.
      apply IH' in Hrest. lia. }
  destruct j as [|j]; simpl in Hj.
  - injection Hj as <-. apply Hend in Hrest. lia.
  - destruct (IH _ _ _ _ Hrest Hj) as (? & ? & ?). lia.
Qed.

Lemma tiles_proper rs o L r :
  tiles o L rs = true -> r ∈ rs -> is_sentinel r = false.
Proof.
  intros Ht Hin. apply list_elem_of_lookup in Hin as [j Hj].
  destruct (tiles_bounds _ _ _ _ _ Ht Hj) as (_ & Hle & _).
  unfold is_sentinel. apply Z.ltb_ge. lia.
Qed.

Lemma tiles_disjoint rs : forall o L j k rj rk i,
  tiles o L rs = true ->
  rs !! j = Some rj -> rs !! k = Some rk ->
  r_start rj <= i <= r_end rj -> r_start rk <= i <= r_end rk -> j = k.
Proof.
  induction rs as [|r0 rs IH]; intros o L j k rj rk i Ht Hj Hk Hij Hik;
    [discriminate|].
  simpl in Ht. apply andb_true_iff in Ht as [Ht Hrest].
  apply andb_true_iff in Ht as [Hs Hle].
  apply Z.eqb_eq in Hs. apply Z.leb_le in Hle.
  destruct j as [|j], k as [|k]; simpl in Hj, Hk.
  - reflexivity.
  - injection Hj as <-.
    destruct (tiles_bounds _ _ _ _ _ Hrest Hk) as (? & ? & ?). lia.
  - injection Hk as <-.
    destruct (tiles_bounds _ _ _ _ _ Hrest Hj) as (? & ? & ?). lia.
  - f_equal. eapply IH; eauto.
Qed.

Lemma tiles_cover rs : forall o L i,
  tiles o L rs = true ->
  ((exists r, r ∈ rs /\ r_start r <= i <= r_end r) <-> o <= i < L).
Proof.
  induction rs as [|r0 rs IH]; intros o L i Ht; simpl in Ht.
  - apply Z.eqb_eq in Ht. split.
    + intros (r & Hin & _). inversion Hin.
    + lia.
  - apply andb_true_iff in Ht as [Ht Hrest].
    apply andb_true_iff in Ht as [Hs Hle].
    apply Z.eqb_eq in Hs. apply Z.leb_le in Hle.
    specialize (IH _ _ i Hrest). split.
    + intros (r & Hin & Hi). apply elem_of_cons in Hin as [->|Hin].
      * destruct (tiles_bounds (r0 :: rs) o L 0%nat r0) as (? & ? & ?);
          [simpl; rewrite Hs, Z.eqb_refl; simpl;
           replace (o <=? r_end r0) with true by (symmetry; apply Z.leb_le; lia);
           exact Hrest | reflexivity | lia].
      * assert (r_end r0 + 1 <= i < L) by (apply IH; eauto). lia.
    + intros Hi. destruct (Z_le_gt_dec i (r_end r0)).
      * exists r0. split; [left | lia].
      * destruct IH as [_ IH]. destruct IH as (r & Hin & Hr); [lia|].
        exists r. split; [right; exact Hin | exact Hr].
Qed.

Lemma covers_proper L r i :
  is_sentinel r = false -> (covers L r i = true <-> r_start r <= i <= r_end r).
Proof.
  intros Hp. unfold covers. rewrite Hp.
  rewrite andb_true_iff, Z.leb_le, Z.leb_le. reflexivity.
Qed.

Lemma covers_sentinel L i :
  covers L (mkRange 0 (-1)) i = true <-> 0 <= i < L.
Proof.
  unfold covers. simpl. rewrite andb_true_iff, Z.leb_le, Z.ltb_lt. reflexivity.
Qed.

(** The ranges of the multi-range plan tile [0, L). *)
Lemma plan_multi_tiles (N L : Z) :
  2 <= N <= L ->
  let rs := mkRange 0 (L / N + L mod N - 1)
              :: blocks (L / N + L mod N) (L / N) (Z.to_nat N - 1) in
  List.length rs = Z.to_nat N /\ tiles 0 L rs = true /\ total_len rs = L.
Proof.
  intros HN rs.
  pose proof (Z.div_mod L N ltac:(lia)) as Hdm.
  pose proof (Z.mod_pos_bound L N ltac:(lia)) as Hm.
  assert (Hb : 1 <= L / N) by (apply Z.div_le_lower_bound; lia).
  assert (Hn : Z.of_nat (Z.to_nat N - 1) = N - 1)
    by (rewrite Nat2Z.inj_sub, Z2Nat.id by lia; reflexivity).
  assert (HL : L = L / N + L mod N + L / N * Z.of_nat (Z.to_nat N - 1))
    by (rewrite Hn; nia).
  subst rs. split; [|split].
  - simpl. rewrite blocks_length. lia.
  - simpl tiles. simpl r_start; simpl r_end.
    replace (0 <=? L / N + L mod N - 1) with true
      by (symmetry; apply Z.leb_le; lia).
    simpl. replace (L / N + L mod N - 1 + 1) with (L / N + L mod N) by lia.
    pose proof (blocks_tiles (L / N) Hb (Z.to_nat N - 1) (L / N + L mod N)) as Hbt.
    rewrite <- HL in Hbt. exact Hbt.
  - change (span_len (mkRange 0 (L / N + L mod N - 1))
            + total_len (blocks (L / N + L mod N) (L / N) (Z.to_nat N - 1)) = L).
    rewrite blocks_total. unfold span_len. simpl r_start; simpl r_end. lia.
Qed.

(** C4: for N >= 2 and L >= N the first spawned range has L/N + L mod N
    bytes (it takes the whole remainder) and every later range has exactly
    L/N bytes. *)
Theorem C4_first_range_takes_remainder (N L : Z) (fuel : nat) :
  2 <= N -> N <= L -> L <= Int64.max_int -> (Z.to_nat N < fuel)%nat ->
  exists first rest,
    plan fuel N L = Returned (Spawn (first :: rest)) /\
    span_len first = L / N + L mod N /\
    Forall (fun r => span_len r = L / N) rest.
Proof.
  intros H2 HNL Hmax Hfuel.
  eexists _, _. split; [apply plan_multi; lia|]. split.
  - unfold span_len. simpl. lia.
  - apply blocks_span.
Qed.

Lemma C4_first_range_takes_remainder_witness :
  exists first rest,
    plan 4 3 1000 = Returned (Spawn (first :: rest)) /\
    span_len first = 1000 / 3 + 1000 mod 3 /\
    Forall (fun r => span_len r = 1000 / 3) rest.
Proof.
  apply (C4_first_range_takes_remainder 3 1000 4);
    [lia | lia | unfold Int64.max_int; lia | simpl; lia].
Defined.

(** C5 (as stated in the specification, refuted): for L = 1000 and N = 3
    the plan is not [{0,335},{336,668},{669,999}]. *)
Lemma C5_spec_plan_is_not_computed :
  plan 4 3 1000 <>
    Returned (Spawn [mkRange 0 335; mkRange 336 668; mkRange 669 999]).
Proof. vm_compute. discriminate. Qed.

(** C5 (amended): for L = 1000 and N = 3 the plan is exactly
    [{0,333},{334,666},{667,999}], of 334, 333 and 333 bytes, whatever
    fuel above the three turns of the loop is given. *)
Theorem C5_plan_1000_3 (k : nat) :
  plan (4 + k) 3 1000 =
    Returned (Spawn [mkRange 0 333; mkRange 334 666; mkRange 667 999]).
Proof.
  rewrite plan_multi; [reflexivity | lia | unfold Int64.max_int; lia | simpl; lia].
Qed.

(** C3: for 0 <= L and 1 <= N <= 255 the dispatched ranges are pairwise
    disjoint and together ask for exactly the bytes of [0, L); when
    N >= 2 and L >= N there are exactly N of them, each starting where the
    previous one stopped, from 0 up to L, and their lengths sum to L. *)
Theorem C3_plan_partitions (N L : Z) (fuel : nat) :
  0 <= L <= Int64.max_int -> 1 <= N <= 255 -> (Z.to_nat N < fuel)%nat ->
  exists d,
    plan fuel N L = Returned d /\
    (forall (j k : nat) rj rk i,
        ranges_of d !! j = Some rj -> ranges_of d !! k = Some rk ->
        covers L rj i = true -> covers L rk i = true -> j = k) /\
    (forall i, (exists r, r ∈ ranges_of d /\ covers L r i = true) <-> 0 <= i < L) /\
    (2 <= N <= L ->
       exists rs, d = Spawn rs /\ List.length rs = Z.to_nat N /\
                  tiles 0 L rs = true /\ total_len rs = L).
Proof.
  intros HL HN Hfuel.
  destruct (Z_lt_dec L N) as [Hlt|Hge]; [|destruct (Z.eq_dec N 1) as [->|Hne]].
  1,2: (eexists; split; [apply plan_single; lia|]; simpl ranges_of;
        split; [|split]).
  1,4: (intros [|j] [|k] rj rk i Hj Hk _ _; simpl in Hj, Hk;
        try discriminate; reflexivity).
  1,3: (intros i; rewrite <- covers_sentinel; split;
        [ intros (r & Hin & Hr); apply list_elem_of_singleton in Hin; subst r; exact Hr
        | intros Hc; eexists; split; [apply list_elem_of_singleton; reflexivity | exact Hc] ]).
  1,2: (intros ?; lia).
  destruct (plan_multi_tiles N L ltac:(lia)) as (Hlen & Ht & Hsum).
  eexists. split; [apply plan_multi; lia|]. simpl ranges_of.
  split; [|split].
  - intros j k rj rk i Hj Hk Hcj Hck.
    apply covers_proper in Hcj;
      [|eapply tiles_proper; [exact Ht | eapply list_elem_of_lookup_2; exact Hj]].
    apply covers_proper in Hck;
      [|eapply tiles_proper; [exact Ht | eapply list_elem_of_lookup_2; exact Hk]].
    eapply tiles_disjoint; eauto.
  - intros i. rewrite <- (tiles_cover _ 0 L i Ht). split.
    + intros (r & Hin & Hr). exists r. split; [exact Hin|].
      apply covers_proper in Hr; [exact Hr | eapply tiles_proper; eauto].
    + intros (r & Hin & Hr). exists r. split; [exact Hin|].
      apply covers_proper; [eapply tiles_proper; eauto | exact Hr].
  - intros _. eexists. split; [reflexivity|]. auto.
Qed.

Lemma C3_plan_partitions_witness :
  exists d,
    plan 5 4 10 = Returned d /\
    (forall (j k : nat) rj rk i,
        ranges_of d !! j = Some rj -> ranges_of d !! k = Some rk ->
        covers 10 rj i = true -> covers 10 rk i = true -> j = k) /\
    (forall i, (exists r, r ∈ ranges_of d /\ covers 10 r i = true) <-> 0 <= i < 10) /\
    (2 <= 4 <= 10 ->
       exists rs, d = Spawn rs /\ List.length rs = Z.to_nat 4 /\
                  tiles 0 10 rs = true /\ total_len rs = 10).
Proof.
  apply (C3_plan_partitions 4 10 5);
    [unfold Int64.max_int; lia | lia | simpl; lia].
Defined.

(** ** The probe *)

(** C7: a HEAD request that fails, or is answered with a status other than
    200, makes the probe return an error; a 200 answer without
    [Accept-Ranges: bytes] or with a negative content length gives length 0
    and no error; a positive length is reported only for a 200 answer that
    advertises byte ranges and carries a non-negative content length. *)
Theorem C7_probe_decision (Do : Request -> reply) (u : string) (sent : list Request) :
  let head := mkRequest "HEAD" u [] in
  (forall e, Do head = Failed e ->
     getContentLength Do u sent = Returned ((0, Some e), sent ++ [head])) /\
  (forall resp, Do head = Replied resp -> StatusCode resp <> 200 ->
     getContentLength Do u sent =
       Returned ((0, Some ("bad response code: " +:+ pretty (StatusCode resp))),
                 sent ++ [head])) /\
  (forall resp, Do head = Replied resp -> StatusCode resp = 200 ->
     header_get (Header resp) "Accept-Ranges" <> "bytes" \/ ContentLength resp < 0 ->
     getContentLength Do u sent = Returned ((0, None), sent ++ [head])) /\
  (forall n err sent',
     getContentLength Do u sent = Returned ((n, err), sent') -> 0 < n ->
     err = None /\
     exists resp, Do head = Replied resp /\ StatusCode resp = 200 /\
                  header_get (Header resp) "Accept-Ranges" = "bytes" /\
                  0 <= ContentLength resp /\ n = ContentLength resp).
Proof.
  intros head. unfold getContentLength, bind, send, ret. fold head.
  split; [|split; [|split]].
  - intros e ->. reflexivity.
  - intros resp -> Hst. apply Z.eqb_neq in Hst. rewrite Hst. reflexivity.
  - intros resp -> Hst Hdeg. apply Z.eqb_eq in Hst. rewrite Hst. simpl.
    destruct (String.eqb_spec (header_get (Header resp) "Accept-Ranges") "bytes")
      as [Hacc|Hacc]; simpl; [|reflexivity].
    destruct Hdeg as [Hdeg|Hdeg]; [contradiction|].
    apply Z.ltb_lt in Hdeg. rewrite Hdeg. reflexivity.
  - intros n err sent'.
    destruct (Do head) as [e|resp]; [intros [= <- <- <-]; lia|].
    destruct (Z.eqb_spec (StatusCode resp) 200); simpl;
      [|intros [= <- <- <-]; lia].
    destruct (String.eqb_spec (header_get (Header resp) "Accept-Ranges") "bytes");
      simpl; [|intros [= <- <- <-]; lia].
    destruct (Z.ltb_spec (ContentLength resp) 0); intros [= <- <- <-]; [lia|].
    intros _. split; [reflexivity|]. exists resp. auto.
Qed.

Lemma C7_probe_decision_witness :
  let head := mkRequest "HEAD" "u" [] in
  getContentLength Examples.unreachable "u" [] =
    Returned ((0, Some "no route to host"), [head]) /\
  getContentLength Examples.not_found "u" [] =
    Returned ((0, Some "bad response code: 404"), [head]) /\
  getContentLength Examples.no_ranges "u" [] = Returned ((0, None), [head]) /\
  ((None : option error) = None /\
   exists resp, Examples.first_range_fails head = Replied resp /\
                StatusCode resp = 200 /\
                header_get (Header resp) "Accept-Ranges" = "bytes" /\
                0 <= ContentLength resp /\ 3 = ContentLength resp).
Proof.
  intros head. split; [|split; [|split]].
  - apply (proj1 (C7_probe_decision Examples.unreachable "u" [])).
    reflexivity.
  - apply (proj1 (proj2 (C7_probe_decision Examples.not_found "u" []))
             (mkResponse 404 [] 0 (Examples.one_byte Byte.x00)));
      [reflexivity | simpl; lia].
  - apply (proj1 (proj2 (proj2 (C7_probe_decision Examples.no_ranges "u" [])))
             (mkResponse 200 [] 1000 (Examples.one_byte Byte.x00)));
      [reflexivity | reflexivity | left; simpl; discriminate].
  - apply (proj2 (proj2 (proj2 (C7_probe_decision Examples.first_range_fails "u" [])))
             3 None [head]); [reflexivity | lia].
Defined.

(** ** The fetcher *)

Section Fetcher.
Context {W : Type} `{WriterAt W}.
Variable Do : Request -> reply.

(** Whatever [getRange] returns, it has sent exactly its one request. *)
Lemma getRange_sent fuel (f : W) u start end_ sent r sent' :
  getRange Do fuel f u start end_ sent = Returned (r, sent') ->
  sent' = sent ++ [range_request u start end_].
Proof.
  unfold getRange, bind, send, ret, lift.
  destruct (Do _) as [e|resp]; [intros [= <- <-]; reflexivity|].
  destruct (end_ <? start), (negb _); try (intros [= <- <-]; reflexivity);
    destruct (copy_body _ _ _ _ _); simpl; try discriminate;
    intros [= <- <-]; reflexivity.
Qed.

(** A nil error is returned only through the copy loop. *)
Lemma getRange_nil fuel (f : W) u start end_ sent f' sent' :
  getRange Do fuel f u start end_ sent = Returned ((f', None), sent') ->
  exists resp, Do (range_request u start end_) = Replied resp /\
               StatusCode resp = (if end_ <? start then 200 else 206).
Proof.
  unfold getRange, bind, send, ret, lift.
  destruct (Do _) as [e|resp]; [discriminate|].
  intros Hrun. exists resp. split; [reflexivity|].
  destruct (end_ <? start).
  - destruct (Z.eqb_spec (StatusCode resp) 200); [assumption|discriminate].
  - destruct (Z.eqb_spec (StatusCode resp) 206); [assumption|discriminate].
Qed.

(** Once the status check has passed, [getRange] is its copy loop. *)
Lemma getRange_stream fuel (f : W) u start end_ sent resp :
  Do (range_request u start end_) = Replied resp ->
  StatusCode resp = (if end_ <? start then 200 else 206) ->
  getRange Do fuel f u start end_ sent =
    match copy_body fuel (Body resp) O f start with
    | Returned f' => Returned ((f', None), sent ++ [range_request u start end_])
    | Panicked => Panicked
    | OutOfFuel => OutOfFuel
    end.
Proof.
  intros HDo Hst. unfold getRange, bind, send, ret, lift. rewrite HDo, Hst.
  destruct (end_ <? start); simpl;
    destruct (copy_body _ _ _ _ _); reflexivity.
Qed.

(** The copy loop stops at the first read that returns an error, whatever
    the error is. *)
Lemma copy_body_ends (body : Reader) (e : error) :
  forall (k fuel i : nat) (f : W) (start : Z),
    (forall j, (i <= j < i + k)%nat -> snd (body j) = None) ->
    snd (body (i + k)%nat) = Some e ->
    (k < fuel)%nat ->
    copy_body fuel body i f start = Panicked \/
    exists f', copy_body fuel body i f start = Returned f'.
Proof.
  induction k as [|k IH]; intros fuel i f start Hnone Herr Hfuel;
    (destruct fuel as [|fuel]; [lia|]); simpl;
    destruct (body i) as [payload eof] eqn:Hbody;
    (destruct (WriteAt f payload start) as [[f' r]|]; [|left; reflexivity]).
  - rewrite Nat.add_0_r, Hbody in Herr. simpl in Herr. subst eof.
    right. eauto.
  - assert (Hi : snd (body i) = None) by (apply Hnone; lia).
    rewrite Hbody in Hi. simpl in Hi. subst eof.
    apply IH; [intros j Hj; apply Hnone; lia | | lia].
    replace (S i + k)%nat with (i + S k)%nat by lia. exact Herr.
Qed.
End Fetcher.

(** C8: with end >= start the one request sent carries the header
    [Range: bytes=<start>-<end>] and any answered status other than 206 is
    returned as an error that names the status and the span; with
    end < start the request carries no header and any answered status other
    than 200 is returned as an error; a nil error is returned only after the
    expected status. *)
Theorem C8_getRange_request_and_status {W : Type} `{WriterAt W}
    (Do : Request -> reply) (fuel : nat) (f : W) (u : string)
    (start end_ : Z) (sent : list Request) :
  let req := range_request u start end_ in
  (start <= end_ ->
     req = mkRequest "GET" u
             [("Range", "bytes=" +:+ pretty start +:+ "-" +:+ pretty end_)]) /\
  (end_ < start -> req = mkRequest "GET" u []) /\
  (forall r sent',
     getRange Do fuel f u start end_ sent = Returned (r, sent') ->
     sent' = sent ++ [req]) /\
  (forall resp, start <= end_ -> Do req = Replied resp -> StatusCode resp <> 206 ->
     getRange Do fuel f u start end_ sent =
       Returned ((f, Some ("bad response code: " +:+ pretty (StatusCode resp)
                           +:+ " while reading bytes " +:+ pretty start
                           +:+ " through " +:+ pretty end_)),
                 sent ++ [req])) /\
  (forall resp, end_ < start -> Do req = Replied resp -> StatusCode resp <> 200 ->
     getRange Do fuel f u start end_ sent =
       Returned ((f, Some ("bad response code: " +:+ pretty (StatusCode resp))),
                 sent ++ [req])) /\
  (forall f' sent',
     getRange Do fuel f u start end_ sent = Returned ((f', None), sent') ->
     exists resp, Do req = Replied resp /\
                  StatusCode resp = (if end_ <? start then 200 else 206)).
Proof.
  intros req. subst req. repeat apply conj.
  - intros Hle. unfold range_request.
    replace (end_ >=? start) with true by (symmetry; apply Z.geb_le; lia).
    reflexivity.
  - intros Hlt. unfold range_request.
    replace (end_ >=? start) with false
      by (symmetry; rewrite Z.geb_leb; apply Z.leb_gt; lia).
    reflexivity.
  - intros r sent'. apply getRange_sent.
  - intros resp Hle HDo Hst. unfold getRange, bind, send, ret. rewrite HDo.
    replace (end_ <? start) with false by (symmetry; apply Z.ltb_ge; lia).
    apply Z.eqb_neq in Hst. rewrite Hst. reflexivity.
  - intros resp Hlt HDo Hst. unfold getRange, bind, send, ret. rewrite HDo.
    replace (end_ <? start) with true by (symmetry; apply Z.ltb_lt; lia).
    apply Z.eqb_neq in Hst. rewrite Hst. reflexivity.
  - intros f' sent'. apply getRange_nil.
Qed.

Lemma C8_getRange_request_and_status_witness :
  let f0 := bufferWriterAt.mk (make 3 3) in
  range_request "u" 0 0 = mkRequest "GET" "u" [("Range", "bytes=0-0")] /\
  getRange Examples.first_range_fails 4 f0 "u" 0 0 [] =
    Returned ((f0, Some "bad response code: 500 while reading bytes 0 through 0"),
              [mkRequest "GET" "u" [("Range", "bytes=0-0")]]) /\
  getRange Examples.not_found 4 f0 "u" 0 (-1) [] =
    Returned ((f0, Some "bad response code: 404"), [mkRequest "GET" "u" []]).
Proof.
  intros f0. split; [|split].
  - apply (proj1 (C8_getRange_request_and_status
                    Examples.first_range_fails 4 f0 "u" 0 0 [])). lia.
  - apply (proj1 (proj2 (proj2 (proj2 (C8_getRange_request_and_status
                    Examples.first_range_fails 4 f0 "u" 0 0 []))))
             (mkResponse 500 [] 0 (Examples.one_byte Byte.x00)));
      [lia | reflexivity | simpl; lia].
  - apply (proj1 (proj2 (proj2 (proj2 (proj2 (C8_getRange_request_and_status
                    Examples.not_found 4 f0 "u" 0 (-1) [])))))
             (mkResponse 404 [] 0 (Examples.one_byte Byte.x00)));
      [lia | reflexivity | simpl; lia].
Defined.

(** C2 (the code run on a failing input): the status check passes, the
    second read of the body fails with an error that is not [io.EOF], and
    [getRange] returns nil: the read failure is lost and the truncated
    transfer is reported as a success. *)
Lemma C2_read_failure_is_not_returned :
  snd (Examples.broken_body 1%nat) = Some "unexpected EOF" /\
  "unexpected EOF" <> EOF /\
  getRange Examples.breaks_mid_stream 3 (bufferWriterAt.mk (make 4 4)) "u" 0 (-1) [] =
    Returned ((bufferWriterAt.mk (mkSlice [Byte.x01; Byte.x02; Byte.x00; Byte.x00] 4),
               None),
              [mkRequest "GET" "u" []]).
Proof. split; [reflexivity|]. split; [discriminate|]. vm_compute. reflexivity. Qed.

(** What the copy loop does with a read error: once the status check has
    passed, the first read that returns a non-nil error, of whatever kind,
    ends the loop and [getRange] falls through to its [return nil], unless
    a write panicked in the sink. *)
Lemma getRange_ends_at_first_read_error {W : Type} `{WriterAt W}
    (Do : Request -> reply) (fuel : nat) (f : W) (u : string)
    (start end_ : Z) (sent : list Request) (resp : Response) (k : nat) (e : error) :
  Do (range_request u start end_) = Replied resp ->
  StatusCode resp = (if end_ <? start then 200 else 206) ->
  (forall j, (j < k)%nat -> snd (Body resp j) = None) ->
  snd (Body resp k) = Some e ->
  (k < fuel)%nat ->
  getRange Do fuel f u start end_ sent <> Panicked ->
  exists f',
    getRange Do fuel f u start end_ sent =
      Returned ((f', None), sent ++ [range_request u start end_]).
Proof.
  intros HDo Hst Hnone Herr Hfuel Hnp.
  rewrite (getRange_stream Do fuel f u start end_ sent resp HDo Hst) in *.
  destruct (copy_body_ends (Body resp) e k fuel O f start) as [Hp|[f' Hf']];
    [intros j Hj; apply Hnone; lia | exact Herr | exact Hfuel | |].
  - rewrite Hp in Hnp. contradiction.
  - rewrite Hf'. eauto.
Qed.

(** ** The engine *)

(** C6: for N >= 1, when L = 0, L < N or N = 1, [download] is one call of
    [getRange] on the sentinel range (0, -1), whose request is a GET
    without any header.  That request is sent and is the only one: when
    the request fails, when it is answered with a status other than 200,
    and when it is answered with 200 and a body that ends within the fuel
    (no write panicking), [download] returns with exactly that request
    added to the requests sent; and it never returns with anything else
    sent. *)
Theorem C6_single_whole_resource_get {W : Type} `{WriterAt W}
    (Do : Request -> reply) (fuel : nat) (sched : schedule) (f : W)
    (u : string) (N L : Z) (sent : list Request) :
  1 <= N -> L = 0 \/ L < N \/ N = 1 ->
  let req := mkRequest "GET" u [] in
  plan fuel N L = Returned (Direct (mkRange 0 (-1))) /\
  download Do fuel sched f u N L sent = getRange Do fuel f u 0 (-1) sent /\
  range_request u 0 (-1) = req /\
  (forall e, Do req = Failed e ->
     download Do fuel sched f u N L sent = Returned ((f, Some e), sent ++ [req])) /\
  (forall resp, Do req = Replied resp -> StatusCode resp <> 200 ->
     download Do fuel sched f u N L sent =
       Returned ((f, Some ("bad response code: " +:+ pretty (StatusCode resp))),
                 sent ++ [req])) /\
  (forall resp k e, Do req = Replied resp -> StatusCode resp = 200 ->
     (forall j, (j < k)%nat -> snd (Body resp j) = None) ->
     snd (Body resp k) = Some e -> (k < fuel)%nat ->
     download Do fuel sched f u N L sent <> Panicked ->
     exists f' err,
       download Do fuel sched f u N L sent = Returned ((f', err), sent ++ [req])) /\
  (forall r sent',
     download Do fuel sched f u N L sent = Returned (r, sent') ->
     sent' = sent ++ [req]).
Proof.
  intros HN Hcase req.
  assert (Hplan : plan fuel N L = Returned (Direct (mkRange 0 (-1))))
    by (apply plan_single; lia).
  assert (Hdl : download Do fuel sched f u N L sent = getRange Do fuel f u 0 (-1) sent)
    by (unfold download, bind, lift; rewrite Hplan; reflexivity).
  assert (Hreq : range_request u 0 (-1) = req) by reflexivity.
  split; [exact Hplan|]. split; [exact Hdl|]. split; [exact Hreq|].
  rewrite Hdl. split; [|split; [|split]].
  - intros e HDo. unfold getRange, bind, send, ret. rewrite Hreq, HDo.
    reflexivity.
  - intros resp HDo Hst. unfold getRange, bind, send, ret. rewrite Hreq, HDo.
    apply Z.eqb_neq in Hst. change (-1 <? 0) with true. cbv iota.
    rewrite Hst. reflexivity.
  - intros resp k e HDo Hst Hnone Herr Hfuel Hnp.
    rewrite <- Hreq in HDo.
    rewrite (getRange_stream Do fuel f u 0 (-1) sent resp HDo Hst) in *.
    destruct (copy_body_ends (Body resp) e k fuel O f 0) as [Hp|[f' Hf']];
      [intros j Hj; apply Hnone; lia | exact Herr | exact Hfuel | |].
    + rewrite Hp in Hnp. contradiction.
    + rewrite Hf', Hreq. eauto.
  - intros r sent' Hret. apply getRange_sent in Hret. rewrite Hret, Hreq.
    reflexivity.
Qed.

Lemma C6_single_whole_resource_get_witness :
  let f0 := bufferWriterAt.mk (make 0 4) in
  let req := mkRequest "GET" "u" [] in
  (plan 4 8 0 = Returned (Direct (mkRange 0 (-1))) /\
   range_request "u" 0 (-1) = req) /\
  download Examples.unreachable 4 (Examples.in_order true) f0 "u" 8 0 [] =
    Returned ((f0, Some "no route to host"), [] ++ [req]) /\
  download Examples.not_found 4 (Examples.in_order true) f0 "u" 8 0 [] =
    Returned ((f0, Some ("bad response code: " +:+ pretty 404)), [] ++ [req]) /\
  (exists f' err,
     download Served.without_ranges 4 (Examples.in_order true) f0 "u" 8 0 [] =
       Returned ((f', err), [] ++ [req])).
Proof.
  intros f0 req.
  pose proof (C6_single_whole_resource_get Examples.unreachable 4
                (Examples.in_order true) f0 "u" 8 0 []
                ltac:(lia) ltac:(left; reflexivity)) as Hfail.
  pose proof (C6_single_whole_resource_get Examples.not_found 4
                (Examples.in_order true) f0 "u" 8 0 []
                ltac:(lia) ltac:(left; reflexivity)) as Hstatus.
  pose proof (C6_single_whole_resource_get Served.without_ranges 4
                (Examples.in_order true) f0 "u" 8 0 []
                ltac:(lia) ltac:(left; reflexivity)) as Hbody.
  cbv zeta in Hfail, Hstatus, Hbody.
  destruct Hfail as (Hplan & _ & Hreq & Hfail & _).
  destruct Hstatus as (_ & _ & _ & _ & Hstatus & _).
  destruct Hbody as (_ & _ & _ & _ & _ & Hbody & _).
  split; [split; [exact Hplan | exact Hreq]|]. split; [|split].
  - apply Hfail. reflexivity.
  - apply (Hstatus (mkResponse 404 [] 0 (Examples.one_byte Byte.x00)));
      [reflexivity | simpl; lia].
  - apply (Hbody (mkResponse 200 [] 2 Served.in_two_reads) 1%nat EOF);
      [reflexivity | reflexivity
       | intros j Hj; assert (j = O) by lia; subst j; reflexivity
       | reflexivity | lia | vm_compute; discriminate].
Defined.

(** ** The in-memory sink *)

Lemma copy_spec : forall (p : list Byte.byte) (buf : slice) (off : Z),
  0 <= off -> off + Z.of_nat (List.length p) <= len buf ->
  len buf <= cap buf -> cap buf <= Int64.max_int ->
  exists buf',
    bufferWriterAt.copy buf p off = Some buf' /\
    slen buf' = slen buf /\
    List.length (backing buf') = List.length (backing buf) /\
    (forall i : nat, (i < List.length p)%nat ->
       backing buf' !! (Z.to_nat off + i)%nat = p !! i) /\
    (forall j : nat, (j < Z.to_nat off \/ Z.to_nat off + List.length p <= j)%nat ->
       backing buf' !! j = backing buf !! j).
Proof.
  induction p as [|b p IH]; intros buf off Hoff Hfit Hlen Hcap.
  - exists buf. simpl. repeat apply conj; auto. intros i Hi. lia.
  - simpl bufferWriterAt.copy. unfold store, len, cap in *.
    simpl List.length in *.
    replace (0 <=? off) with true by (symmetry; apply Z.leb_le; lia).
    replace (off <? Z.of_nat (slen buf)) with true
      by (symmetry; apply Z.ltb_lt; lia).
    simpl andb. cbv iota.
    rewrite add_id by int64.
    destruct (IH (mkSlice (<[Z.to_nat off := b]> (backing buf)) (slen buf)) (off + 1))
      as (buf' & Hcopy & Hslen & Hback & Hin & Hout);
      simpl backing in *; simpl slen in *;
      rewrite ?length_insert; try lia.
    rewrite length_insert in Hback.
    exists buf'. repeat apply conj; auto.
    + intros [|i] Hi.
      * rewrite Hout by lia. rewrite Nat.add_0_r. simpl.
        apply list_lookup_insert_eq. lia.
      * replace (Z.to_nat off + S i)%nat with (Z.to_nat (off + 1) + i)%nat by lia.
        rewrite Hin by lia. reflexivity.
    + intros j Hj. rewrite Hout by lia.
      apply list_lookup_insert_ne. lia.
Qed.

(** C9: a write at an offset off >= 0 that fits in the capacity extends the
    logical length to off + len(p) when that exceeds it and leaves it alone
    otherwise, stores the bytes of p at [off, off + len(p)), changes no
    other byte of the array, and returns (len(p), nil). *)
Theorem C9_WriteAt_in_capacity (w : bufferWriterAt.t) (p : list Byte.byte) (off : Z) :
  let buf := bufferWriterAt.buffer w in
  let n := Z.of_nat (List.length p) in
  len buf <= cap buf -> cap buf <= Int64.max_int ->
  0 <= off -> off + n <= cap buf ->
  exists w',
    bufferWriterAt.WriteAt w p off = Some (w', (n, None)) /\
    len (bufferWriterAt.buffer w') =
      (if off + n >? len buf then off + n else len buf) /\
    cap (bufferWriterAt.buffer w') = cap buf /\
    (forall i : nat, (i < List.length p)%nat ->
       backing (bufferWriterAt.buffer w') !! (Z.to_nat off + i)%nat = p !! i) /\
    (forall j : nat, (j < Z.to_nat off \/ Z.to_nat off + List.length p <= j)%nat ->
       backing (bufferWriterAt.buffer w') !! j = backing buf !! j).
Proof.
  intros buf n Hlen Hcap Hoff Hfit. unfold bufferWriterAt.WriteAt. fold buf n.
  replace (off <? 0) with false by (symmetry; apply Z.ltb_ge; lia).
  assert (Hn : 0 <= n) by (unfold n; lia).
  rewrite add_id by int64. simpl orb.
  replace (n + off >? len buf) with (off + n >? len buf) by (f_equal; lia).
  destruct (Z.gtb_spec (off + n) (len buf)) as [Hgt|Hle].
  - unfold reslice.
    replace (0 <=? n + off) with true by (symmetry; apply Z.leb_le; lia).
    replace (n + off <=? cap buf) with true by (symmetry; apply Z.leb_le; lia).
    simpl andb. cbv iota.
    destruct (copy_spec p (mkSlice (backing buf) (Z.to_nat (n + off))) off)
      as (buf' & Hcopy & Hslen & Hback & Hin & Hout);
      unfold len, cap in *; simpl backing in *; simpl slen in *; try lia.
    rewrite Hcopy. exists (bufferWriterAt.mk buf'). simpl.
    repeat apply conj; auto; try lia.
  - destruct (copy_spec p buf off)
      as (buf' & Hcopy & Hslen & Hback & Hin & Hout); try lia.
    rewrite Hcopy. exists (bufferWriterAt.mk buf'). simpl.
    unfold len, cap in *. repeat apply conj; auto; try lia.
Qed.

Lemma C9_WriteAt_in_capacity_witness :
  let w := bufferWriterAt.mk (make 1 4) in
  let p := [Byte.x0a; Byte.x0b] in
  exists w',
    bufferWriterAt.WriteAt w p 1 = Some (w', (2, None)) /\
    len (bufferWriterAt.buffer w') = (if 1 + 2 >? 1 then 1 + 2 else 1) /\
    cap (bufferWriterAt.buffer w') = 4 /\
    (forall i : nat, (i < 2)%nat ->
       backing (bufferWriterAt.buffer w') !! (Z.to_nat 1 + i)%nat = p !! i) /\
    (forall j : nat, (j < Z.to_nat 1 \/ Z.to_nat 1 + 2 <= j)%nat ->
       backing (bufferWriterAt.buffer w') !! j = backing (make 1 4) !! j).
Proof.
  intros w p.
  apply (C9_WriteAt_in_capacity w p 1);
    [vm_compute; discriminate | vm_compute; discriminate | lia
     | vm_compute; discriminate].
Defined.

(** ** Joining the fetchers *)

(** What [download] returns after the join is the last value the draining
    goroutine was handed, nil or not. *)
Lemma drain_last (received : list (option error)) :
  drain received = List.last received None.
Proof.
  unfold drain. induction received as [|e es _] using rev_ind; [reflexivity|].
  rewrite fold_left_app, List.last_last. reflexivity.
Qed.

(** Every spawned fetcher finishes exactly once, in some order. *)
Lemma arrival_Permutation {A} (n : nat) :
  forall (ps : list nat) (pending : list A),
    List.length pending = n -> arrival n ps pending ≡ₚ pending.
Proof.
  induction n as [|n IH]; intros ps pending Hlen; simpl.
  - destruct pending; [reflexivity | discriminate].
  - destruct (lookup_lt_is_Some_2 pending (hd O ps `mod` List.length pending)) as [a Ha].
    { apply Nat.mod_upper_bound. lia. }
    rewrite Ha. etransitivity; [|symmetry; exact (delete_Permutation pending _ a Ha)].
    constructor. apply IH. rewrite length_delete by eauto. lia.
Qed.

(** With several fetchers, [download] returns the result of the fetcher
    that handed its result over last (or, when the last write of the
    draining goroutine is not seen, of the one before it). *)
Lemma download_spawn_result {W : Type} `{WriterAt W} (Do : Request -> reply)
    fuel sched (f : W) u N L sent rs f' received sent' :
  plan fuel N L = Returned (Spawn rs) ->
  run_fetchers Do fuel f u (arrival (List.length rs) (picks sched) rs) sent =
    Returned ((f', received), sent') ->
  download Do fuel sched f u N L sent =
    Returned ((f', List.last (if last_write_seen sched then received
                              else removelast received) None), sent').
Proof.
  intros Hplan Hrun. unfold download, bind, lift. rewrite Hplan. simpl.
  rewrite Hrun. unfold ret. rewrite drain_last. reflexivity.
Qed.

(** C1 (the code run on a failing input): three ranges are planned, the
    fetcher of the first one returns an error and finishes first, the other
    two succeed; [download] returns nil, whether or not the last write of
    the draining goroutine is seen. *)
Theorem C1_download_returns_nil_after_a_failed_fetcher (seen : bool) :
  plan 4 3 3 = Returned (Spawn [mkRange 0 0; mkRange 1 1; mkRange 2 2]) /\
  getRange Examples.first_range_fails 4 (bufferWriterAt.mk (make 3 3)) "u" 0 0 [] =
    Returned ((bufferWriterAt.mk (make 3 3),
               Some "bad response code: 500 while reading bytes 0 through 0"),
              [mkRequest "GET" "u" [("Range", "bytes=0-0")]]) /\
  download Examples.first_range_fails 4 (Examples.in_order seen)
           (bufferWriterAt.mk (make 3 3)) "u" 3 3 [] =
    Returned ((bufferWriterAt.mk (mkSlice [Byte.x00; Byte.x07; Byte.x07] 3), None),
              [mkRequest "GET" "u" [("Range", "bytes=0-0")];
               mkRequest "GET" "u" [("Range", "bytes=1-1")];
               mkRequest "GET" "u" [("Range", "bytes=2-2")]]).
Proof. destruct seen; vm_compute; auto. Qed.

(** ** The in-memory entry point *)

Lemma getContentLength_sent (Do : Request -> reply) u sent r sent' :
  getContentLength Do u sent = Returned (r, sent') ->
  sent' = sent ++ [mkRequest "HEAD" u []].
Proof.
  unfold getContentLength, bind, send, ret.
  destruct (Do _) as [e|resp]; [intros [= <- <-]; reflexivity|].
  destruct (negb _); [intros [= <- <-]; reflexivity|].
  destruct (negb _); [intros [= <- <-]; reflexivity|].
  destruct (_ <? _); intros [= <- <-]; reflexivity.
Qed.

(** C10: when the probe returns an error, [Get] returns a nil slice and
    that error, and the HEAD request is the only request sent; when the
    probe succeeds and [download] returns an error, [Get] returns the buffer
    as [download] left it, not nil, together with that error. *)
Theorem C10_Get_on_failure (Do : Request -> reply) (fuel : nat) (sched : schedule)
    (u : string) (threads : Z) (sent : list Request) :
  (forall n e sent1,
     getContentLength Do u sent = Returned ((n, Some e), sent1) ->
     Get Do fuel sched u threads sent =
       Returned ((None, Some e), sent ++ [mkRequest "HEAD" u []])) /\
  (forall length sent1 f' e sent2,
     getContentLength Do u sent = Returned ((length, None), sent1) ->
     download Do fuel sched
       (if length =? 0
        then bufferWriterAt.mk (make 0 MaxInt32)
        else bufferWriterAt.mk (make length length))
       u threads length sent1 = Returned ((f', Some e), sent2) ->
     Get Do fuel sched u threads sent =
       Returned ((Some (bufferWriterAt.buffer f'), Some e), sent2)).
Proof.
  split.
  - intros n e sent1 Hprobe.
    pose proof (getContentLength_sent _ _ _ _ _ Hprobe) as ->.
    unfold Get, bind. rewrite Hprobe. reflexivity.
  - intros length sent1 f' e sent2 Hprobe Hdl.
    unfold Get, bind. rewrite Hprobe. cbv beta iota zeta.
    rewrite Hdl. reflexivity.
Qed.

Lemma C10_Get_on_failure_witness :
  Get Examples.not_found 4 (Examples.in_order true) "u" 2 [] =
    Returned ((None, Some "bad response code: 404"), [] ++ [mkRequest "HEAD" "u" []]) /\
  Get Examples.last_range_fails 4 (Examples.in_order true) "u" 2 [] =
    Returned ((Some (mkSlice [Byte.x07; Byte.x00] 2),
               Some "bad response code: 500 while reading bytes 1 through 1"),
              [mkRequest "HEAD" "u" [];
               mkRequest "GET" "u" [("Range", "bytes=0-0")];
               mkRequest "GET" "u" [("Range", "bytes=1-1")]]).
Proof.
  split.
  - apply (proj1 (C10_Get_on_failure Examples.not_found 4
                    (Examples.in_order true) "u" 2 [])
             0 "bad response code: 404" [mkRequest "HEAD" "u" []]).
    vm_compute. reflexivity.
  - apply (proj2 (C10_Get_on_failure Examples.last_range_fails 4
                    (Examples.in_order true) "u" 2 [])
             2 [mkRequest "HEAD" "u" []]
             (bufferWriterAt.mk (mkSlice [Byte.x07; Byte.x00] 2))
             "bad response code: 500 while reading bytes 1 through 1");
      vm_compute; reflexivity.
Defined.

(** * Further properties *)

(** ** The in-memory sink: bounds and composition *)

Lemma wrap_overflow z :
  Int64.max_int < z <= 2 * Int64.max_int -> Int64.wrap z < 0.
Proof.
  unfold Int64.wrap, Int64.max_int. intros Hz.
  replace (z + 2 ^ 63) with (z + 2 ^ 63 - 2 ^ 64 + 1 * 2 ^ 64) by lia.
  rewrite Z.mod_add by lia. rewrite Z.mod_small by lia. lia.
Qed.

(** A write in capacity, in the vocabulary of [written_at]. *)
Lemma WriteAt_written (w : bufferWriterAt.t) (p : list Byte.byte) (off : Z) :
  let buf := bufferWriterAt.buffer w in
  let n := Z.of_nat (List.length p) in
  len buf <= cap buf -> cap buf <= Int64.max_int ->
  0 <= off -> off + n <= cap buf ->
  exists w',
    bufferWriterAt.WriteAt w p off = Some (w', (n, None)) /\
    len (bufferWriterAt.buffer w') = Z.max (len buf) (off + n) /\
    cap (bufferWriterAt.buffer w') = cap buf /\
    written_at (backing buf) (backing (bufferWriterAt.buffer w')) (Z.to_nat off) p.
Proof.
  intros buf n Hlen Hcap Hoff Hfit. unfold bufferWriterAt.WriteAt. fold buf n.
  replace (off <? 0) with false by (symmetry; apply Z.ltb_ge; lia).
  assert (Hn : 0 <= n) by (unfold n; lia).
  rewrite add_id by int64. simpl orb.
  destruct (Z.gtb_spec (n + off) (len buf)) as [Hgt|Hle].
  - unfold reslice.
    replace (0 <=? n + off) with true by (symmetry; apply Z.leb_le; lia).
    replace (n + off <=? cap buf) with true by (symmetry; apply Z.leb_le; lia).
    simpl andb. cbv iota.
    destruct (copy_spec p (mkSlice (backing buf) (Z.to_nat (n + off))) off)
      as (buf' & Hcopy & Hslen & Hback & Hin & Hout);
      unfold len, cap in *; simpl backing in *; simpl slen in *; try lia.
    rewrite Hcopy. exists (bufferWriterAt.mk buf'). simpl.
    unfold written_at. repeat apply conj; auto; try lia.
  - destruct (copy_spec p buf off)
      as (buf' & Hcopy & Hslen & Hback & Hin & Hout); try lia.
    rewrite Hcopy. exists (bufferWriterAt.mk buf'). simpl.
    unfold written_at, len, cap in *. repeat apply conj; auto; try lia.
Qed.

(** The copy loop of [WriteAt] panics as soon as an index leaves the
    slice. *)
Lemma copy_out_of_bounds : forall (p : list Byte.byte) (buf : slice) (off : Z),
  p <> [] -> len buf <= Int64.max_int ->
  off < 0 \/ len buf < off + Z.of_nat (List.length p) ->
  bufferWriterAt.copy buf p off = None.
Proof.
  induction p as [|b p IH]; intros buf off Hne Hmax Hout; [congruence|].
  simpl bufferWriterAt.copy. unfold store.
  destruct (Z.leb_spec 0 off); simpl andb; [|reflexivity].
  destruct (Z.ltb_spec off (len buf)); simpl andb; cbv iota; [|reflexivity].
  rewrite add_id by int64.
  simpl List.length in Hout.
  destruct p as [|b' p]; [simpl in Hout; lia|].
  apply IH; [discriminate | unfold len in *; simpl; lia |].
  right. unfold len in *. simpl slen. simpl List.length in *. lia.
Qed.

(** X1: [WriteAt] returns exactly when the offset is not negative and the
    write ends within the capacity; otherwise it panics. *)
Theorem X1_WriteAt_returns_iff_in_capacity
    (w : bufferWriterAt.t) (p : list Byte.byte) (off : Z) :
  let buf := bufferWriterAt.buffer w in
  let n := Z.of_nat (List.length p) in
  len buf <= cap buf -> cap buf <= Int64.max_int -> n <= Int64.max_int ->
  Int64.in_range off ->
  (is_Some (bufferWriterAt.WriteAt w p off) <-> 0 <= off /\ off + n <= cap buf).
Proof.
  intros buf n Hlen Hcap Hn Hoff. split.
  - intros [r Hr]. revert Hr. unfold bufferWriterAt.WriteAt. fold buf n.
    assert (Hn0 : 0 <= n) by (unfold n; lia).
    destruct (Z.ltb_spec off 0) as [Hneg|Hpos]; simpl orb.
    + rewrite add_id by int64. unfold reslice.
      destruct (Z.leb_spec 0 (n + off)); simpl andb; [|discriminate].
      destruct (Z.leb_spec (n + off) (cap buf)); simpl andb; cbv iota;
        [|discriminate].
      rewrite copy_out_of_bounds; [discriminate | | unfold len; simpl; lia | lia].
      intros ->. unfold n in *. simpl in *. int64.
    + destruct (Z_le_gt_dec (n + off) Int64.max_int) as [Hok|Hwrap].
      * rewrite add_id by int64.
        destruct (Z.gtb_spec (n + off) (len buf)) as [Hgt|Hle].
        -- unfold reslice.
           destruct (Z.leb_spec 0 (n + off)); simpl andb; [|discriminate].
           destruct (Z.leb_spec (n + off) (cap buf)); simpl andb; cbv iota;
             [|discriminate].
           intros _. lia.
        -- intros _. lia.
      * assert (Hneg : Int64.add n off < 0)
          by (apply wrap_overflow; unfold Int64.in_range, Int64.max_int in *; lia).
        replace (Int64.add n off >? len buf) with false
          by (symmetry; rewrite Z.gtb_ltb; apply Z.ltb_ge; unfold len; lia).
        rewrite copy_out_of_bounds; [discriminate | | lia | lia].
        intros ->. unfold n in *. simpl in *. int64.
  - intros [H0 Hfit].
    destruct (WriteAt_written w p off) as (w' & Hw & _); try assumption.
    rewrite Hw. eauto.
Qed.

Lemma X1_WriteAt_returns_iff_in_capacity_witness :
  is_Some (bufferWriterAt.WriteAt (bufferWriterAt.mk (make 1 4)) [Byte.x0a; Byte.x0b] 3)
  <-> 0 <= 3 /\ 3 + 2 <= 4.
Proof.
  apply (X1_WriteAt_returns_iff_in_capacity
           (bufferWriterAt.mk (make 1 4)) [Byte.x0a; Byte.x0b] 3);
    [vm_compute; discriminate | vm_compute; discriminate
     | vm_compute; discriminate | split; vm_compute; discriminate].
Defined.

Lemma written_at_app (b b1 b2 : list Byte.byte) (off : nat) (p q : list Byte.byte) :
  written_at b b1 off p -> written_at b1 b2 (off + List.length p) q ->
  written_at b b2 off (p ++ q).
Proof.
  intros (Hl1 & Hin1 & Hout1) (Hl2 & Hin2 & Hout2). unfold written_at.
  rewrite length_app. split; [congruence|]. split.
  - intros i Hi. destruct (Nat.lt_ge_cases i (List.length p)) as [Hp|Hq].
    + rewrite Hout2 by lia. rewrite Hin1 by lia.
      symmetry. apply lookup_app_l. exact Hp.
    + rewrite lookup_app_r by lia.
      replace (off + i)%nat with (off + List.length p + (i - List.length p))%nat by lia.
      apply Hin2. lia.
  - intros j Hj. rewrite Hout2 by lia. apply Hout1. lia.
Qed.

Lemma written_at_unique (b x y : list Byte.byte) (off : nat) (bs : list Byte.byte) :
  written_at b x off bs -> written_at b y off bs -> x = y.
Proof.
  intros (Hlx & Hinx & Houtx) (Hly & Hiny & Houty). apply list_eq. intros j.
  destruct (Nat.lt_ge_cases j off) as [Hlt|Hge].
  - rewrite Houtx, Houty by lia. reflexivity.
  - destruct (Nat.lt_ge_cases j (off + List.length bs)) as [Hin|Hout].
    + replace j with (off + (j - off))%nat by lia.
      rewrite Hinx, Hiny by lia. reflexivity.
    + rewrite Houtx, Houty by lia. reflexivity.
Qed.

(** X2: two writes in a row, the second starting where the first one
    stopped, leave the sink exactly as one write of the two payloads put
    together. *)
Theorem X2_WriteAt_consecutive
    (w : bufferWriterAt.t) (p q : list Byte.byte) (off : Z) :
  let buf := bufferWriterAt.buffer w in
  let np := Z.of_nat (List.length p) in
  let nq := Z.of_nat (List.length q) in
  len buf <= cap buf -> cap buf <= Int64.max_int ->
  0 <= off -> off + np + nq <= cap buf ->
  exists w1 w2,
    bufferWriterAt.WriteAt w p off = Some (w1, (np, None)) /\
    bufferWriterAt.WriteAt w1 q (off + np) = Some (w2, (nq, None)) /\
    bufferWriterAt.WriteAt w (p ++ q) off = Some (w2, (np + nq, None)).
Proof.
  intros buf np nq Hlen Hcap Hoff Hfit. subst buf np nq.
  pose proof (WriteAt_written w p off) as H1. cbv zeta in H1.
  destruct H1 as (w1 & Hw1 & Hlen1 & Hcap1 & Hwr1); try lia.
  pose proof (WriteAt_written w1 q (off + Z.of_nat (List.length p))) as H2.
  cbv zeta in H2.
  destruct H2 as (w2 & Hw2 & Hlen2 & Hcap2 & Hwr2); try lia.
  pose proof (WriteAt_written w (p ++ q) off) as H3. cbv zeta in H3.
  rewrite length_app, Nat2Z.inj_add in H3.
  destruct H3 as (w3 & Hw3 & Hlen3 & Hcap3 & Hwr3); try lia.
  exists w1, w2. split; [exact Hw1|]. split; [exact Hw2|].
  rewrite Hw3. do 2 f_equal.
  replace (Z.to_nat (off + Z.of_nat (List.length p)))
    with (Z.to_nat off + List.length p)%nat in Hwr2 by lia.
  pose proof (written_at_app _ _ _ _ _ _ Hwr1 Hwr2) as Hwr.
  pose proof (written_at_unique _ _ _ _ _ Hwr3 Hwr) as Hback.
  destruct w3 as [[b3 l3]], w2 as [[b2 l2]]. simpl in *. subst b3.
  do 2 f_equal. unfold len in *. simpl in *. lia.
Qed.

Lemma X2_WriteAt_consecutive_witness :
  let w := bufferWriterAt.mk (make 0 4) in
  exists w1 w2,
    bufferWriterAt.WriteAt w [Byte.x0a] 1 = Some (w1, (1, None)) /\
    bufferWriterAt.WriteAt w1 [Byte.x0b; Byte.x0c] (1 + 1) = Some (w2, (2, None)) /\
    bufferWriterAt.WriteAt w ([Byte.x0a] ++ [Byte.x0b; Byte.x0c]) 1 =
      Some (w2, (1 + 2, None)).
Proof.
  intros w.
  apply (X2_WriteAt_consecutive w [Byte.x0a] [Byte.x0b; Byte.x0c] 1);
    [vm_compute; discriminate | vm_compute; discriminate | lia
     | vm_compute; discriminate].
Defined.

(** ** The fetcher on the in-memory sink *)

Lemma ends_at_step (body : Reader) (i k : nat) :
  ends_at body i (S k) -> snd (body i) = None /\ ends_at body (S i) k.
Proof.
  intros [Hnone Herr]. split; [apply Hnone; lia|]. split.
  - intros j Hj. apply Hnone. lia.
  - replace (S i + k)%nat with (i + S k)%nat by lia. exact Herr.
Qed.

Lemma WriteAt_past_capacity (w : bufferWriterAt.t) (p : list Byte.byte) (off : Z) :
  let buf := bufferWriterAt.buffer w in
  let n := Z.of_nat (List.length p) in
  len buf <= cap buf -> 0 <= off -> off + n <= Int64.max_int -> cap buf < off + n ->
  bufferWriterAt.WriteAt w p off = None.
Proof.
  intros buf n Hlen Hoff Hmax Hpast. unfold bufferWriterAt.WriteAt. fold buf n.
  assert (Hn : 0 <= n) by (unfold n; lia).
  replace (off <? 0) with false by (symmetry; apply Z.ltb_ge; lia).
  rewrite add_id by int64. simpl orb.
  replace (n + off >? len buf) with true
    by (symmetry; rewrite Z.gtb_ltb; apply Z.ltb_lt; lia).
  unfold reslice.
  replace (n + off <=? cap buf) with false by (symmetry; apply Z.leb_gt; lia).
  rewrite andb_false_r. reflexivity.
Qed.

(** The copy loop stores the chunks of the body one after the other. *)
Lemma copy_body_writes (body : Reader) :
  forall (k fuel i : nat) (f : bufferWriterAt.t) (start : Z),
    ends_at body i k -> (k < fuel)%nat ->
    len (bufferWriterAt.buffer f) <= cap (bufferWriterAt.buffer f) ->
    cap (bufferWriterAt.buffer f) <= Int64.max_int ->
    0 <= start ->
    start + Z.of_nat (List.length (chunks_from body i k)) <= cap (bufferWriterAt.buffer f) ->
    exists f',
      copy_body fuel body i f start = Returned f' /\
      len (bufferWriterAt.buffer f') =
        Z.max (len (bufferWriterAt.buffer f))
              (start + Z.of_nat (List.length (chunks_from body i k))) /\
      cap (bufferWriterAt.buffer f') = cap (bufferWriterAt.buffer f) /\
      written_at (backing (bufferWriterAt.buffer f)) (backing (bufferWriterAt.buffer f'))
                 (Z.to_nat start) (chunks_from body i k).
Proof.
  induction k as [|k IH]; intros fuel i f start Hends Hfuel Hlen Hcap Hstart Hfit;
    (destruct fuel as [|fuel]; [lia|]); simpl copy_body; simpl chunks_from in *;
    destruct (body i) as [payload eof] eqn:Hbody; simpl fst in *;
    unfold WriteAt, bufferWriterAt_WriterAt.
  - destruct Hends as [_ Herr]. rewrite Nat.add_0_r, Hbody in Herr. simpl in Herr.
    pose proof (WriteAt_written f payload start) as Hw. cbv zeta in Hw.
    destruct Hw as (f' & Hw & Hl & Hc & Hwr); try lia.
    rewrite Hw. destruct eof as [e|]; [|congruence]. eauto.
  - apply ends_at_step in Hends as [Hnone Hends].
    rewrite Hbody in Hnone. simpl in Hnone. subst eof.
    rewrite length_app, Nat2Z.inj_add in *.
    pose proof (WriteAt_written f payload start) as Hw. cbv zeta in Hw.
    destruct Hw as (f1 & Hw & Hl1 & Hc1 & Hwr1); try lia.
    rewrite Hw. rewrite add_id by int64.
    destruct (IH fuel (S i) f1 (start + Z.of_nat (List.length payload)))
      as (f' & Hrun & Hl & Hc & Hwr); try assumption; try lia.
    exists f'. split; [exact Hrun|]. split; [lia|]. split; [lia|].
    eapply written_at_app; [exact Hwr1|].
    replace (Z.to_nat start + List.length payload)%nat
      with (Z.to_nat (start + Z.of_nat (List.length payload))) by lia.
    exact Hwr.
Qed.

(** The copy loop panics when the body holds more than the room left. *)
Lemma copy_body_overflows (body : Reader) :
  forall (k fuel i : nat) (f : bufferWriterAt.t) (start : Z),
    ends_at body i k -> (k < fuel)%nat ->
    len (bufferWriterAt.buffer f) <= cap (bufferWriterAt.buffer f) ->
    cap (bufferWriterAt.buffer f) <= Int64.max_int ->
    0 <= start ->
    cap (bufferWriterAt.buffer f) < start + Z.of_nat (List.length (chunks_from body i k)) ->
    start + Z.of_nat (List.length (chunks_from body i k)) <= Int64.max_int ->
    copy_body fuel body i f start = Panicked.
Proof.
  induction k as [|k IH]; intros fuel i f start Hends Hfuel Hlen Hcap Hstart Hpast Hmax;
    (destruct fuel as [|fuel]; [lia|]); simpl copy_body; simpl chunks_from in *;
    destruct (body i) as [payload eof] eqn:Hbody; simpl fst in *;
    unfold WriteAt, bufferWriterAt_WriterAt.
  - rewrite WriteAt_past_capacity by lia. reflexivity.
  - apply ends_at_step in Hends as [Hnone Hends].
    rewrite Hbody in Hnone. simpl in Hnone. subst eof.
    rewrite length_app, Nat2Z.inj_add in *.
    destruct (Z_lt_le_dec (cap (bufferWriterAt.buffer f))
                (start + Z.of_nat (List.length payload))) as [Hnow|Hlater].
    + rewrite WriteAt_past_capacity by lia. reflexivity.
    + pose proof (WriteAt_written f payload start) as Hw. cbv zeta in Hw.
      destruct Hw as (f1 & Hw & Hl1 & Hc1 & Hwr1); try lia.
      rewrite Hw. rewrite add_id by int64.
      apply IH; try assumption; lia.
Qed.

(** What a successful fetch leaves in the buffer. *)
Lemma getRange_writes (Do : Request -> reply) (fuel : nat) (f : bufferWriterAt.t)
    (u : string) (start end_ : Z) (sent : list Request)
    (resp : Response) (bs : list Byte.byte) :
  Do (range_request u start end_) = Replied resp ->
  StatusCode resp = (if end_ <? start then 200 else 206) ->
  delivers fuel (Body resp) bs ->
  len (bufferWriterAt.buffer f) <= cap (bufferWriterAt.buffer f) ->
  cap (bufferWriterAt.buffer f) <= Int64.max_int ->
  0 <= start ->
  start + Z.of_nat (List.length bs) <= cap (bufferWriterAt.buffer f) ->
  exists f',
    getRange Do fuel f u start end_ sent =
      Returned ((f', None), sent ++ [range_request u start end_]) /\
    len (bufferWriterAt.buffer f') =
      Z.max (len (bufferWriterAt.buffer f)) (start + Z.of_nat (List.length bs)) /\
    cap (bufferWriterAt.buffer f') = cap (bufferWriterAt.buffer f) /\
    written_at (backing (bufferWriterAt.buffer f)) (backing (bufferWriterAt.buffer f'))
               (Z.to_nat start) bs.
Proof.
  intros HDo Hst (k & Hk & Hends & Hbs) Hlen Hcap Hstart Hfit. subst bs.
  rewrite (getRange_stream Do fuel f u start end_ sent resp HDo Hst).
  destruct (copy_body_writes (Body resp) k fuel O f start)
    as (f' & Hrun & Hl & Hc & Hwr); try assumption.
  rewrite Hrun. eauto.
Qed.

Lemma getRange_overflows (Do : Request -> reply) (fuel : nat) (f : bufferWriterAt.t)
    (u : string) (start end_ : Z) (sent : list Request)
    (resp : Response) (bs : list Byte.byte) :
  Do (range_request u start end_) = Replied resp ->
  StatusCode resp = (if end_ <? start then 200 else 206) ->
  delivers fuel (Body resp) bs ->
  len (bufferWriterAt.buffer f) <= cap (bufferWriterAt.buffer f) ->
  cap (bufferWriterAt.buffer f) <= Int64.max_int ->
  0 <= start ->
  cap (bufferWriterAt.buffer f) < start + Z.of_nat (List.length bs) ->
  start + Z.of_nat (List.length bs) <= Int64.max_int ->
  getRange Do fuel f u start end_ sent = Panicked.
Proof.
  intros HDo Hst (k & Hk & Hends & Hbs) Hlen Hcap Hstart Hpast Hmax. subst bs.
  rewrite (getRange_stream Do fuel f u start end_ sent resp HDo Hst).
  rewrite (copy_body_overflows (Body resp) k fuel O f start); auto.
Qed.

(** X3: on the in-memory sink, once the status check has passed, a body
    that fits in the capacity from [start] on is stored there byte for
    byte, nothing else in the array changes, the length grows to the end of
    the write if it was shorter, and nil is returned; a body that does not
    fit makes [getRange] panic. *)
Theorem X3_getRange_stores_the_body_or_panics
    (Do : Request -> reply) (fuel : nat) (f : bufferWriterAt.t)
    (u : string) (start end_ : Z) (sent : list Request)
    (resp : Response) (bs : list Byte.byte) :
  let buf := bufferWriterAt.buffer f in
  let stop := start + Z.of_nat (List.length bs) in
  Do (range_request u start end_) = Replied resp ->
  StatusCode resp = (if end_ <? start then 200 else 206) ->
  delivers fuel (Body resp) bs ->
  len buf <= cap buf -> cap buf <= Int64.max_int ->
  0 <= start -> stop <= Int64.max_int ->
  (stop <= cap buf ->
     exists f',
       getRange Do fuel f u start end_ sent =
         Returned ((f', None), sent ++ [range_request u start end_]) /\
       len (bufferWriterAt.buffer f') = Z.max (len buf) stop /\
       cap (bufferWriterAt.buffer f') = cap buf /\
       written_at (backing buf) (backing (bufferWriterAt.buffer f'))
                  (Z.to_nat start) bs) /\
  (cap buf < stop -> getRange Do fuel f u start end_ sent = Panicked).
Proof.
  intros buf stop HDo Hst Hbody Hlen Hcap Hstart Hmax. split; intros Hroom.
  - eapply getRange_writes; eauto.
  - eapply getRange_overflows; eauto.
Qed.

Lemma X3_getRange_stores_the_body_or_panics_witness :
  let f := bufferWriterAt.mk (make 2 2) in
  (1 + Z.of_nat (List.length [Byte.x0b]) <= cap (make 2 2) ->
     exists f',
       getRange Served.with_ranges 3 f "u" 1 1 [] =
         Returned ((f', None), [] ++ [range_request "u" 1 1]) /\
       len (bufferWriterAt.buffer f') =
         Z.max (len (make 2 2)) (1 + Z.of_nat (List.length [Byte.x0b])) /\
       cap (bufferWriterAt.buffer f') = cap (make 2 2) /\
       written_at (backing (make 2 2)) (backing (bufferWriterAt.buffer f'))
                  (Z.to_nat 1) [Byte.x0b]) /\
  (cap (make 2 2) < 1 + Z.of_nat (List.length [Byte.x0b]) ->
     getRange Served.with_ranges 3 f "u" 1 1 [] = Panicked).
Proof.
  intros f.
  apply (X3_getRange_stores_the_body_or_panics Served.with_ranges 3 f "u" 1 1 []
           (mkResponse 206 [] 1 (Served.at_once [Byte.x0b])) [Byte.x0b]);
    [reflexivity | reflexivity
     | exists O; split; [lia | split; [split; [intros j Hj; lia | discriminate]
                                       | reflexivity]]
     | vm_compute; discriminate | vm_compute; discriminate | lia
     | vm_compute; discriminate].
Defined.

(** ** Round trips through [Get] *)

Lemma probe_known (Do : Request -> reply) (u : string) (sent : list Request)
    (hresp : Response) :
  Do (mkRequest "HEAD" u []) = Replied hresp ->
  StatusCode hresp = 200 ->
  header_get (Header hresp) "Accept-Ranges" = "bytes" ->
  0 <= ContentLength hresp ->
  getContentLength Do u sent =
    Returned ((ContentLength hresp, None), sent ++ [mkRequest "HEAD" u []]).
Proof.
  intros HDo Hst Hacc Hcl. unfold getContentLength, bind, send, ret.
  rewrite HDo, Hst, Hacc. simpl.
  replace (ContentLength hresp <? 0) with false by (symmetry; apply Z.ltb_ge; lia).
  reflexivity.
Qed.

Lemma probe_unknown (Do : Request -> reply) (u : string) (sent : list Request)
    (hresp : Response) :
  Do (mkRequest "HEAD" u []) = Replied hresp ->
  StatusCode hresp = 200 ->
  header_get (Header hresp) "Accept-Ranges" <> "bytes" \/ ContentLength hresp <= 0 ->
  getContentLength Do u sent =
    Returned ((0, None), sent ++ [mkRequest "HEAD" u []]).
Proof.
  intros HDo Hst Hdeg. unfold getContentLength, bind, send, ret.
  rewrite HDo, Hst. simpl.
  destruct (String.eqb_spec (header_get (Header hresp) "Accept-Ranges") "bytes")
    as [Hacc|Hacc]; simpl; [|reflexivity].
  destruct Hdeg as [Hdeg|Hdeg]; [contradiction|].
  destruct (Z.ltb_spec (ContentLength hresp) 0); [reflexivity|].
  replace (ContentLength hresp) with 0 by lia. reflexivity.
Qed.

Lemma slice_of_length (data : list Byte.byte) (s e : Z) :
  0 <= s <= e -> e < Z.of_nat (List.length data) ->
  List.length (slice_of data s e) = Z.to_nat (e - s + 1).
Proof.
  intros Hs He. unfold slice_of. rewrite length_take, length_drop. lia.
Qed.

Lemma slice_of_lookup (data : list Byte.byte) (s e : Z) (i : nat) :
  (i < Z.to_nat (e - s + 1))%nat ->
  slice_of data s e !! i = data !! (Z.to_nat s + i)%nat.
Proof.
  intros Hi. unfold slice_of. rewrite lookup_take_lt by lia. apply lookup_drop.
Qed.

Lemma drain_all_nil (seen : bool) (received : list (option error)) :
  Forall (fun e => e = None) received ->
  drain (if seen then received else removelast received) = None.
Proof.
  intros Hall.
  assert (Hlast : forall l : list (option error),
             Forall (fun e => e = None) l -> List.last l None = None).
  { induction l as [|e [|e' l] IH]; intros Hl; [reflexivity | |].
    - inversion Hl; subst. reflexivity.
    - inversion Hl; subst. apply IH. assumption. }
  assert (Hrem : forall l : list (option error),
             Forall (fun e => e = None) l ->
             Forall (fun e => e = None) (removelast l)).
  { induction l as [|e [|e' l] IH]; intros Hl; simpl; [constructor | constructor |].
    inversion Hl; subst. constructor; [reflexivity|]. apply IH. assumption. }
  rewrite drain_last. destruct seen; apply Hlast; auto.
Qed.

Lemma range_request_proper (u : string) (s e : Z) :
  s <= e ->
  range_request u s e =
    mkRequest "GET" u [("Range", "bytes=" +:+ pretty s +:+ "-" +:+ pretty e)].
Proof.
  intros Hle. unfold range_request.
  replace (e >=? s) with true by (symmetry; apply Z.geb_le; lia). reflexivity.
Qed.

Section RoundTrip.
Variable Do : Request -> reply.
Variable fuel : nat.
Variable u : string.
Variable data : list Byte.byte.

(** Fetchers run one after the other on a buffer of the size of the
    resource: all return nil, the buffer keeps its size, and every byte of
    a fetched range holds the byte of the resource. *)
Lemma run_fetchers_fill :
  honours_ranges Do fuel u data ->
  Z.of_nat (List.length data) <= Int64.max_int ->
  forall (rs : list Range) (f : bufferWriterAt.t) (sent : list Request)
         (C : nat -> Prop),
    (forall r, r ∈ rs -> 0 <= r_start r <= r_end r /\ r_end r < Z.of_nat (List.length data)) ->
    slen (bufferWriterAt.buffer f) = List.length data ->
    List.length (backing (bufferWriterAt.buffer f)) = List.length data ->
    (forall j, C j -> backing (bufferWriterAt.buffer f) !! j = data !! j) ->
    exists f' received sent',
      run_fetchers Do fuel f u rs sent = Returned ((f', received), sent') /\
      Forall (fun e => e = None) received /\
      slen (bufferWriterAt.buffer f') = List.length data /\
      List.length (backing (bufferWriterAt.buffer f')) = List.length data /\
      (forall j, C j \/ (exists r, r ∈ rs /\ r_start r <= Z.of_nat j <= r_end r) ->
                 backing (bufferWriterAt.buffer f') !! j = data !! j).
Proof.
  intros Hsrv Hmax. induction rs as [|r rs IH]; intros f sent C Hrs Hslen Hback Hagree.
  - exists f, [], sent. simpl. repeat apply conj; auto.
    intros j [Hc|(r & Hin & _)]; [auto | inversion Hin].
  - destruct (Hrs r ltac:(left)) as [Hr HrL].
    destruct (Hsrv (r_start r) (r_end r) Hr HrL) as (resp & HDo & Hst & Hdel).
    rewrite <- range_request_proper in HDo by lia.
    pose proof (slice_of_length data (r_start r) (r_end r) Hr HrL) as Hbs.
    destruct (getRange_writes Do fuel f u (r_start r) (r_end r) sent resp
                (slice_of data (r_start r) (r_end r)))
      as (f1 & Hget & Hl1 & Hc1 & Hl & Hin & Hout);
      try assumption; unfold len, cap in *; try lia.
    { replace (r_end r <? r_start r) with false
        by (symmetry; apply Z.ltb_ge; lia). exact Hst. }
    destruct (IH f1 (sent ++ [range_request u (r_start r) (r_end r)])
                (fun j => C j \/ r_start r <= Z.of_nat j <= r_end r))
      as (f' & received & sent' & Hrun & Hnil & Hslen' & Hback' & Hagree');
      try lia.
    { intros r' Hr'. apply Hrs. right. exact Hr'. }
    { intros j [Hc|Hj].
      - destruct (Z_lt_le_dec (Z.of_nat j) (r_start r)) as [Hlo|Hlo];
          [rewrite Hout by lia; auto|].
        destruct (Z_le_gt_dec (Z.of_nat j) (r_end r)) as [Hhi|Hhi];
          [|rewrite Hout by lia; auto].
        replace j with (Z.to_nat (r_start r) + (j - Z.to_nat (r_start r)))%nat by lia.
        rewrite Hin by lia. rewrite slice_of_lookup by lia. reflexivity.
      - replace j with (Z.to_nat (r_start r) + (j - Z.to_nat (r_start r)))%nat by lia.
        rewrite Hin by lia. rewrite slice_of_lookup by lia. reflexivity. }
    exists f', (None :: received), sent'. split.
    + simpl. unfold bind at 1. rewrite Hget. unfold bind at 1. rewrite Hrun.
      reflexivity.
    + repeat apply conj; auto.
      intros j [Hc|(r' & Hr' & Hj)]; apply Hagree'; [left; left; exact Hc|].
      apply elem_of_cons in Hr' as [->|Hr']; [left; right; exact Hj|].
      right. exists r'. auto.
Qed.
End RoundTrip.

Lemma make_full (n : Z) :
  0 <= n ->
  slen (make n n) = Z.to_nat n /\ List.length (backing (make n n)) = Z.to_nat n.
Proof. intros Hn. unfold make. simpl. rewrite length_replicate. auto. Qed.

(** A buffer of the size of the resource in which every byte agrees with
    the resource is the resource. *)
Lemma filled_is_data (data b : list Byte.byte) :
  List.length b = List.length data ->
  (forall j : nat, (j < List.length data)%nat -> b !! j = data !! j) ->
  b = data.
Proof.
  intros Hlen Hagree. apply list_eq. intros j.
  destruct (Nat.lt_ge_cases j (List.length data)) as [Hlt|Hge]; [auto|].
  rewrite !lookup_ge_None_2 by lia. reflexivity.
Qed.

Lemma download_direct {W : Type} `{WriterAt W} (Do : Request -> reply)
    fuel sched (f : W) u N L sent r :
  plan fuel N L = Returned (Direct r) ->
  download Do fuel sched f u N L sent =
    getRange Do fuel f u (r_start r) (r_end r) sent.
Proof. intros Hplan. unfold download, lift, bind. rewrite Hplan. reflexivity. Qed.

Lemma download_spawn {W : Type} `{WriterAt W} (Do : Request -> reply)
    fuel sched (f : W) u N L sent rs :
  plan fuel N L = Returned (Spawn rs) ->
  download Do fuel sched f u N L sent =
    match run_fetchers Do fuel f u (arrival (List.length rs) (picks sched) rs) sent with
    | Returned ((f', received), sent') =>
        Returned ((f', drain (if last_write_seen sched then received
                              else removelast received)), sent')
    | Panicked => Panicked
    | OutOfFuel => OutOfFuel
    end.
Proof.
  intros Hplan. unfold download, lift, bind. rewrite Hplan. simpl.
  destruct (run_fetchers _ _ _ _ _ _) as [[[f' received] sent']| |]; reflexivity.
Qed.

Lemma Get_after_probe (Do : Request -> reply) fuel sched u N sent L sent1 :
  getContentLength Do u sent = Returned ((L, None), sent1) ->
  Get Do fuel sched u N sent =
    match download Do fuel sched
            (if L =? 0
             then bufferWriterAt.mk (make 0 MaxInt32)
             else bufferWriterAt.mk (make L L)) u N L sent1 with
    | Returned ((f', err), sent') =>
        Returned ((Some (bufferWriterAt.buffer f'), err), sent')
    | Panicked => Panicked
    | OutOfFuel => OutOfFuel
    end.
Proof.
  intros Hprobe. unfold Get, bind. rewrite Hprobe. cbv beta iota zeta.
  destruct (download _ _ _ _ _ _ _ _) as [[[f' err] sent']| |]; reflexivity.
Qed.

(** X4: against a server that announces the length of a non-empty resource
    and byte-range support, answers a GET without headers with the whole
    resource and every proper range with exactly its bytes, [Get] returns
    the resource, byte for byte, and a nil error: for every thread count
    N >= 1 and every order in which the fetchers finish. *)
Theorem X4_Get_returns_the_resource
    (Do : Request -> reply) (fuel : nat) (sched : schedule) (u : string)
    (N : Z) (data : list Byte.byte) (sent : list Request) (hresp : Response) :
  1 <= N ->
  1 <= Z.of_nat (List.length data) <= Int64.max_int ->
  (Z.to_nat N < fuel)%nat ->
  Do (mkRequest "HEAD" u []) = Replied hresp ->
  StatusCode hresp = 200 ->
  header_get (Header hresp) "Accept-Ranges" = "bytes" ->
  ContentLength hresp = Z.of_nat (List.length data) ->
  serves_whole Do fuel u data ->
  honours_ranges Do fuel u data ->
  exists sent',
    Get Do fuel sched u N sent =
      Returned ((Some (mkSlice data (List.length data)), None), sent').
Proof.
  intros HN HL Hfuel Hhead Hst Hacc Hcl Hwhole Hranges.
  set (L := Z.of_nat (List.length data)) in *.
  rewrite (Get_after_probe Do fuel sched u N sent L (sent ++ [mkRequest "HEAD" u []]))
    by (rewrite <- Hcl; apply probe_known; auto; lia).
  replace (L =? 0) with false by (symmetry; apply Z.eqb_neq; lia).
  destruct (make_full L ltac:(lia)) as [Hslen0 Hback0].
  assert (HLnat : Z.to_nat L = List.length data) by (unfold L; lia).
  rewrite HLnat in Hslen0, Hback0.
  set (f0 := bufferWriterAt.mk (make L L)) in *.
  assert (Hlen0 : len (bufferWriterAt.buffer f0) = L)
    by (unfold len; simpl in *; lia).
  assert (Hcap0 : cap (bufferWriterAt.buffer f0) = L)
    by (unfold cap; simpl in *; lia).
  destruct (Z_lt_dec L N) as [Hlt|Hge];
    [|destruct (Z.eq_dec N 1) as [HN1|HN1]].
  1,2: (destruct Hwhole as (resp & HDo & Hst200 & Hdel);
        destruct (getRange_writes Do fuel f0 u 0 (-1)
                    (sent ++ [mkRequest "HEAD" u []]) resp data)
          as (f' & Hget & Hlen' & Hcap' & Hl & Hin & Hout);
        [exact HDo | exact Hst200 | exact Hdel | lia | lia | lia | fold L; lia |];
        rewrite (download_direct Do fuel sched f0 u N L _ (mkRange 0 (-1)))
          by (apply plan_single; lia);
        simpl r_start; simpl r_end; rewrite Hget;
        destruct f' as [[b l]]; unfold len in Hlen'; simpl in *;
        replace l with (List.length data) by lia;
        rewrite (filled_is_data data b) by (lia || (intros j Hj; apply (Hin j Hj)));
        eexists; reflexivity).
  destruct (plan_multi_tiles N L ltac:(lia)) as (Hcount & Htiles & _).
  set (rs := mkRange 0 (L / N + L mod N - 1)
               :: blocks (L / N + L mod N) (L / N) (Z.to_nat N - 1)) in *.
  pose proof (arrival_Permutation (List.length rs) (picks sched) rs eq_refl) as Hperm.
  destruct (run_fetchers_fill Do fuel u data Hranges ltac:(lia)
              (arrival (List.length rs) (picks sched) rs) f0
              (sent ++ [mkRequest "HEAD" u []]) (fun _ => False))
    as (f' & received & sent' & Hrun & Hnil & Hslen' & Hback' & Hagree);
    [ | exact Hslen0 | exact Hback0 | tauto | ].
  { intros r Hr. rewrite Hperm in Hr.
    apply list_elem_of_lookup in Hr as [j Hj].
    destruct (tiles_bounds _ _ _ _ _ Htiles Hj) as (? & ? & ?). fold L. lia. }
  rewrite (download_spawn Do fuel sched f0 u N L _ rs) by (apply plan_multi; lia).
  rewrite Hrun. rewrite drain_all_nil by exact Hnil.
  destruct f' as [[b l]]. simpl in *. subst l.
  rewrite (filled_is_data data b); [eexists; reflexivity | exact Hback' |].
  intros j Hj. apply Hagree. right.
  destruct (proj2 (tiles_cover rs 0 L (Z.of_nat j) Htiles) ltac:(lia))
    as (r & Hr & Hspan).
  exists r. split; [rewrite Hperm; exact Hr | exact Hspan].
Qed.

Lemma Served_whole : serves_whole Served.with_ranges 3 "u" Served.two_bytes.
Proof.
  eexists. split; [reflexivity|]. split; [reflexivity|].
  exists 1%nat. split; [lia|]. split; [|reflexivity].
  split; [|discriminate].
  intros j Hj. assert (j = O) by lia. subst j. reflexivity.
Qed.

Lemma Served_ranges : honours_ranges Served.with_ranges 3 "u" Served.two_bytes.
Proof.
  intros s e Hs He. simpl in He.
  assert (Hcases : (s = 0 /\ e = 0) \/ (s = 0 /\ e = 1) \/ (s = 1 /\ e = 1)) by lia.
  destruct Hcases as [[-> ->]|[[-> ->]|[-> ->]]];
    (eexists; split; [reflexivity|]; split; [reflexivity|]).
  - exists O. split; [lia|]. split; [|reflexivity].
    split; [intros j Hj; lia | discriminate].
  - exists 1%nat. split; [lia|]. split; [|reflexivity].
    split; [|discriminate].
    intros j Hj. assert (j = O) by lia. subst j. reflexivity.
  - exists O. split; [lia|]. split; [|reflexivity].
    split; [intros j Hj; lia | discriminate].
Qed.

Lemma X4_Get_returns_the_resource_witness :
  exists sent',
    Get Served.with_ranges 3 (mkSchedule [1%nat] true) "u" 2 [] =
      Returned ((Some (mkSlice Served.two_bytes (List.length Served.two_bytes)), None),
                sent').
Proof.
  apply (X4_Get_returns_the_resource Served.with_ranges 3 (mkSchedule [1%nat] true)
           "u" 2 Served.two_bytes []
           (mkResponse 200 [("Accept-Ranges", "bytes")] 2 (Served.at_once [])));
    [lia | split; vm_compute; discriminate | simpl; lia
     | reflexivity | reflexivity | reflexivity | reflexivity
     | exact Served_whole | exact Served_ranges].
Defined.

Lemma take_written (data b0 b : list Byte.byte) :
  written_at b0 b O data -> (List.length data <= List.length b0)%nat ->
  take (List.length data) b = data.
Proof.
  intros (Hl & Hin & _) Hfit. apply list_eq. intros j.
  destruct (Nat.lt_ge_cases j (List.length data)) as [Hlt|Hge].
  - rewrite lookup_take_lt by lia. apply (Hin j Hlt).
  - rewrite lookup_take_ge by lia. rewrite lookup_ge_None_2 by lia. reflexivity.
Qed.

Lemma MaxInt32_bounds : 0 <= MaxInt32 <= Int64.max_int.
Proof. unfold MaxInt32, Int64.max_int. lia. Qed.

Lemma make_empty_big :
  len (make 0 MaxInt32) = 0 /\ cap (make 0 MaxInt32) = MaxInt32.
Proof.
  pose proof MaxInt32_bounds. unfold len, cap, make. cbn [slen backing].
  rewrite length_replicate. split; lia.
Qed.

Lemma Get_unknown_length (Do : Request -> reply) (fuel : nat) (sched : schedule)
    (u : string) (N : Z) (sent : list Request) (hresp : Response) :
  1 <= N ->
  Do (mkRequest "HEAD" u []) = Replied hresp ->
  StatusCode hresp = 200 ->
  header_get (Header hresp) "Accept-Ranges" <> "bytes" \/ ContentLength hresp <= 0 ->
  Get Do fuel sched u N sent =
    match getRange Do fuel (bufferWriterAt.mk (make 0 MaxInt32)) u 0 (-1)
            (sent ++ [mkRequest "HEAD" u []]) with
    | Returned ((f', err), sent') =>
        Returned ((Some (bufferWriterAt.buffer f'), err), sent')
    | Panicked => Panicked
    | OutOfFuel => OutOfFuel
    end.
Proof.
  intros HN Hhead Hst Hdeg.
  rewrite (Get_after_probe Do fuel sched u N sent 0 (sent ++ [mkRequest "HEAD" u []]))
    by (apply (probe_unknown Do u sent hresp); assumption).
  rewrite (download_direct Do fuel sched _ u N 0 _ (mkRange 0 (-1)))
    by (apply plan_single; lia).
  reflexivity.
Qed.

(** X5: when the HEAD answer has status 200 but does not advertise byte
    ranges, or carries no positive length, the only requests of [Get] are
    the HEAD and one GET without any header, whatever the thread count
    N >= 1.  [Get] returns with exactly these two sent when the GET fails
    and when it is answered with a status other than 200 (with the error
    and the untouched buffer), and when it is answered with the whole
    resource, of at most MaxInt32 bytes: then the slice returned holds
    exactly the resource, on a buffer of capacity MaxInt32, and the error
    is nil.  It never returns with anything else sent. *)
Theorem X5_Get_without_range_support
    (Do : Request -> reply) (fuel : nat) (sched : schedule) (u : string)
    (N : Z) (sent : list Request) (hresp : Response) :
  1 <= N ->
  Do (mkRequest "HEAD" u []) = Replied hresp ->
  StatusCode hresp = 200 ->
  header_get (Header hresp) "Accept-Ranges" <> "bytes" \/ ContentLength hresp <= 0 ->
  let get := mkRequest "GET" u [] in
  let log := sent ++ [mkRequest "HEAD" u []; get] in
  (forall e, Do get = Failed e ->
     Get Do fuel sched u N sent =
       Returned ((Some (make 0 MaxInt32), Some e), log)) /\
  (forall resp, Do get = Replied resp -> StatusCode resp <> 200 ->
     Get Do fuel sched u N sent =
       Returned ((Some (make 0 MaxInt32),
                  Some ("bad response code: " +:+ pretty (StatusCode resp))), log)) /\
  (forall data, Z.of_nat (List.length data) <= MaxInt32 ->
     serves_whole Do fuel u data ->
     exists buf,
       Get Do fuel sched u N sent = Returned ((Some buf, None), log) /\
       slen buf = List.length data /\
       take (List.length data) (backing buf) = data /\
       cap buf = MaxInt32) /\
  (forall r sent', Get Do fuel sched u N sent = Returned (r, sent') -> sent' = log).
Proof.
  intros HN Hhead Hst Hdeg get log.
  pose proof MaxInt32_bounds as Hmax.
  destruct make_empty_big as [Hlen0 Hcap0].
  rewrite (Get_unknown_length Do fuel sched u N sent hresp HN Hhead Hst Hdeg).
  assert (Hlog : (sent ++ [mkRequest "HEAD" u []]) ++ [range_request u 0 (-1)] = log)
    by (unfold log; rewrite <- app_assoc; reflexivity).
  assert (Hreq : range_request u 0 (-1) = get) by reflexivity.
  set (b0 := make 0 MaxInt32) in *. clearbody b0.
  split; [|split; [|split]].
  - intros e HDo. unfold getRange, bind, send, ret. rewrite Hreq in *.
    rewrite HDo, Hlog. reflexivity.
  - intros resp HDo Hbad. unfold getRange, bind, send, ret. rewrite Hreq in *.
    rewrite HDo, Hlog.
    apply Z.eqb_neq in Hbad. change (-1 <? 0) with true. cbv iota.
    rewrite Hbad. reflexivity.
  - intros data Hsize (resp & HDo & Hst200 & Hdel).
    destruct (getRange_writes Do fuel (bufferWriterAt.mk b0) u 0 (-1)
                (sent ++ [mkRequest "HEAD" u []]) resp data)
      as (f' & Hget & Hlen' & Hcap' & Hwr);
      [exact HDo | exact Hst200 | exact Hdel | | | lia | |];
      cbn [bufferWriterAt.buffer] in *; try lia.
    rewrite Hget, Hlog. exists (bufferWriterAt.buffer f').
    split; [reflexivity|].
    split; [unfold len in *; lia|].
    split; [|lia].
    eapply take_written; [exact Hwr|]. unfold cap in Hcap0. lia.
  - intros r sent'.
    destruct (getRange _ _ _ _ _ _ _) as [[[f' err] s1]| |] eqn:Hget;
      try discriminate.
    intros [= <- <-]. apply getRange_sent in Hget. rewrite Hget. exact Hlog.
Qed.

Lemma Served_whole_plain :
  serves_whole Served.without_ranges 3 "u" Served.two_bytes.
Proof.
  eexists. split; [reflexivity|]. split; [reflexivity|].
  exists 1%nat. split; [lia|]. split; [|reflexivity].
  split; [|discriminate].
  intros j Hj. assert (j = O) by lia. subst j. reflexivity.
Qed.

Lemma X5_Get_without_range_support_witness :
  let log := [] ++ [mkRequest "HEAD" "u" []; mkRequest "GET" "u" []] in
  Get Served.get_forbidden 3 (mkSchedule [] true) "u" 4 [] =
    Returned ((Some (make 0 MaxInt32),
               Some ("bad response code: " +:+ pretty 403)), log) /\
  (exists buf,
     Get Served.without_ranges 3 (mkSchedule [] true) "u" 4 [] =
       Returned ((Some buf, None), log) /\
     slen buf = List.length Served.two_bytes /\
     take (List.length Served.two_bytes) (backing buf) = Served.two_bytes /\
     cap buf = MaxInt32).
Proof.
  intros log.
  pose proof (X5_Get_without_range_support Served.get_forbidden 3
                (mkSchedule [] true) "u" 4 []
                (mkResponse 200 [] 2 (Served.at_once []))
                ltac:(lia) eq_refl eq_refl
                ltac:(left; simpl; discriminate)) as Hrefused.
  pose proof (X5_Get_without_range_support Served.without_ranges 3
                (mkSchedule [] true) "u" 4 []
                (mkResponse 200 [] 2 (Served.at_once []))
                ltac:(lia) eq_refl eq_refl
                ltac:(left; simpl; discriminate)) as Hserved.
  cbv zeta in Hrefused, Hserved.
  destruct Hrefused as (_ & Hrefused & _).
  destruct Hserved as (_ & _ & Hserved & _).
  split.
  - apply (Hrefused (mkResponse 403 [] 0 (Served.at_once [])));
      [reflexivity | simpl; lia].
  - apply (Hserved Served.two_bytes);
      [vm_compute; discriminate | exact Served_whole_plain].
Defined.

(** X6: when the probe reports a length L >= 1 and one request is made
    (N = 1 or L < N), a body of more than L bytes makes [Get] panic: the
    buffer of L bytes is never grown past its capacity. *)
Theorem X6_Get_panics_on_a_longer_body
    (Do : Request -> reply) (fuel : nat) (sched : schedule) (u : string)
    (N : Z) (sent : list Request) (hresp resp : Response) (bs : list Byte.byte) :
  1 <= N -> N = 1 \/ ContentLength hresp < N ->
  Do (mkRequest "HEAD" u []) = Replied hresp ->
  StatusCode hresp = 200 ->
  header_get (Header hresp) "Accept-Ranges" = "bytes" ->
  1 <= ContentLength hresp ->
  Do (mkRequest "GET" u []) = Replied resp ->
  StatusCode resp = 200 ->
  delivers fuel (Body resp) bs ->
  ContentLength hresp < Z.of_nat (List.length bs) <= Int64.max_int ->
  Get Do fuel sched u N sent = Panicked.
Proof.
  intros HN Hone Hhead Hst Hacc HL HDo Hst200 Hdel Hlong.
  set (L := ContentLength hresp) in *.
  rewrite (Get_after_probe Do fuel sched u N sent L (sent ++ [mkRequest "HEAD" u []]))
    by (apply probe_known; auto; fold L; lia).
  replace (L =? 0) with false by (symmetry; apply Z.eqb_neq; lia).
  rewrite (download_direct Do fuel sched _ u N L _ (mkRange 0 (-1)))
    by (apply plan_single; lia).
  cbn [r_start r_end].
  destruct (make_full L ltac:(lia)) as [Hslen0 Hback0].
  rewrite (getRange_overflows Do fuel (bufferWriterAt.mk (make L L)) u 0 (-1) _ resp bs);
    [reflexivity | exact HDo | exact Hst200 | exact Hdel | | | lia | |];
    unfold len, cap; cbn [bufferWriterAt.buffer]; lia.
Qed.

Lemma X6_Get_panics_on_a_longer_body_witness :
  Get Served.sends_too_much 3 (mkSchedule [] true) "u" 1 [] = Panicked.
Proof.
  apply (X6_Get_panics_on_a_longer_body Served.sends_too_much 3 (mkSchedule [] true)
           "u" 1 []
           (mkResponse 200 [("Accept-Ranges", "bytes")] 2 (Served.at_once []))
           (mkResponse 200 [] 2 (Served.at_once [Byte.x0a; Byte.x0b; Byte.x0c]))
           [Byte.x0a; Byte.x0b; Byte.x0c]);
    [lia | left; reflexivity | reflexivity | reflexivity | reflexivity
     | simpl; lia | reflexivity | reflexivity
     | exists O; split; [lia | split; [split; [intros j Hj; lia | discriminate]
                                       | reflexivity]]
     | unfold Int64.max_int; simpl; lia].
Defined.

(** ** What a fetcher and the engine never do *)

(** X7: a fetcher that returns an error has written nothing: the sink is
    the one it was given, and the error is either the transport's or the
    answer's unexpected status. *)
Theorem X7_getRange_error_leaves_the_sink {W : Type} `{WriterAt W}
    (Do : Request -> reply) (fuel : nat) (f : W) (u : string) (start end_ : Z)
    (sent : list Request) (f' : W) (err : error) (sent' : list Request) :
  getRange Do fuel f u start end_ sent = Returned ((f', Some err), sent') ->
  f' = f /\
  (Do (range_request u start end_) = Failed err \/
   exists resp, Do (range_request u start end_) = Replied resp /\
                StatusCode resp <> (if end_ <? start then 200 else 206)).
Proof.
  unfold getRange, bind, send, ret, lift.
  destruct (Do _) as [e|resp]; [intros [= <- <- <-]; auto|].
  destruct (end_ <? start).
  - destruct (Z.eqb_spec (StatusCode resp) 200) as [Hok|Hbad]; simpl.
    + destruct (copy_body _ _ _ _ _); simpl; discriminate.
    + intros [= <- <- <-]. split; [reflexivity|]. right. eauto.
  - destruct (Z.eqb_spec (StatusCode resp) 206) as [Hok|Hbad]; simpl.
    + destruct (copy_body _ _ _ _ _); simpl; discriminate.
    + intros [= <- <- <-]. split; [reflexivity|]. right. eauto.
Qed.

Lemma X7_getRange_error_leaves_the_sink_witness :
  bufferWriterAt.mk (make 3 3) = bufferWriterAt.mk (make 3 3) /\
  (Examples.first_range_fails (range_request "u" 0 0) =
     Failed "bad response code: 500 while reading bytes 0 through 0" \/
   exists resp, Examples.first_range_fails (range_request "u" 0 0) = Replied resp /\
                StatusCode resp <> (if 0 <? 0 then 200 else 206)).
Proof.
  apply (X7_getRange_error_leaves_the_sink Examples.first_range_fails 4
           (bufferWriterAt.mk (make 3 3)) "u" 0 0 []
           (bufferWriterAt.mk (make 3 3))
           "bad response code: 500 while reading bytes 0 through 0"
           [mkRequest "GET" "u" [("Range", "bytes=0-0")]]).
  vm_compute. reflexivity.
Defined.

Lemma run_fetchers_sent {W : Type} `{WriterAt W} (Do : Request -> reply)
    (fuel : nat) (u : string) :
  forall (rs : list Range) (f : W) (sent : list Request) f' es sent',
    run_fetchers Do fuel f u rs sent = Returned ((f', es), sent') ->
    sent' = sent ++ map (fun r => range_request u (r_start r) (r_end r)) rs /\
    List.length es = List.length rs.
Proof.
  induction rs as [|r rs IH]; intros f sent f' es sent'; simpl.
  - unfold ret. intros [= <- <- <-]. rewrite app_nil_r. auto.
  - unfold bind at 1.
    destruct (getRange Do fuel f u (r_start r) (r_end r) sent)
      as [[[f1 e] sent1]| |] eqn:Hget; try discriminate.
    unfold bind at 1.
    destruct (run_fetchers Do fuel f1 u rs sent1)
      as [[[f2 es2] sent2]| |] eqn:Hrun; try discriminate.
    unfold ret. intros [= <- <- <-].
    apply getRange_sent in Hget. apply IH in Hrun as [-> Hlen]. subst sent1.
    rewrite <- app_assoc. simpl. auto.
Qed.

(** X8: whenever [download] returns, the requests it has sent are exactly
    one GET per range of its plan, in the order the fetchers finished, and
    nothing else; with zero threads it has sent nothing. *)
Theorem X8_download_sends_one_request_per_range {W : Type} `{WriterAt W}
    (Do : Request -> reply) (fuel : nat) (sched : schedule) (f : W) (u : string)
    (N L : Z) (sent : list Request) (r : W * option error) (sent' : list Request) :
  download Do fuel sched f u N L sent = Returned (r, sent') ->
  exists d order,
    plan fuel N L = Returned d /\
    order ≡ₚ ranges_of d /\
    sent' = sent ++ map (fun r => range_request u (r_start r) (r_end r)) order.
Proof.
  destruct (plan fuel N L) as [d| |] eqn:Hplan;
    [|unfold download, lift, bind; rewrite Hplan; discriminate..].
  destruct d as [|r0|rs].
  - unfold download, lift, bind. rewrite Hplan. simpl. unfold ret.
    intros [= <- <-]. exists Refuse, []. rewrite app_nil_r. auto.
  - rewrite (download_direct Do fuel sched f u N L sent r0 Hplan). intros Hget.
    apply getRange_sent in Hget. exists (Direct r0), [r0]. auto.
  - rewrite (download_spawn Do fuel sched f u N L sent rs Hplan).
    destruct (run_fetchers _ _ _ _ _ _) as [[[f' es] sent1]| |] eqn:Hrun;
      try discriminate.
    intros [= <- <-]. apply run_fetchers_sent in Hrun as [-> _].
    exists (Spawn rs), (arrival (List.length rs) (picks sched) rs).
    split; [reflexivity|]. split; [|reflexivity].
    apply arrival_Permutation. reflexivity.
Qed.

Lemma X8_download_sends_one_request_per_range_witness :
  exists d order,
    plan 4 3 3 = Returned d /\
    order ≡ₚ ranges_of d /\
    [mkRequest "GET" "u" [("Range", "bytes=1-1")];
     mkRequest "GET" "u" [("Range", "bytes=2-2")];
     mkRequest "GET" "u" [("Range", "bytes=0-0")]] =
      [] ++ map (fun r => range_request "u" (r_start r) (r_end r)) order.
Proof.
  apply (X8_download_sends_one_request_per_range Examples.first_range_fails 4
           (mkSchedule [1%nat; 1%nat] true) (bufferWriterAt.mk (make 3 3)) "u" 3 3 []
           (bufferWriterAt.mk (mkSlice [Byte.x00; Byte.x07; Byte.x07] 3),
            Some "bad response code: 500 while reading bytes 0 through 0")).
  vm_compute. reflexivity.
Defined.

(** X9: with several fetchers, [download] returns the sink as the fetchers
    left it and, as its error, the result of the fetcher that handed its
    result over last, nil or not; when the last write of the draining
    goroutine is not seen, it is the result of the fetcher before it. *)
Theorem X9_download_returns_the_last_result {W : Type} `{WriterAt W}
    (Do : Request -> reply) (fuel : nat) (sched : schedule) (f : W) (u : string)
    (N L : Z) (sent : list Request) (rs : list Range)
    (f' : W) (received : list (option error)) (sent' : list Request) :
  plan fuel N L = Returned (Spawn rs) ->
  run_fetchers Do fuel f u (arrival (List.length rs) (picks sched) rs) sent =
    Returned ((f', received), sent') ->
  List.length received = List.length rs /\
  download Do fuel sched f u N L sent =
    Returned ((f', List.last (if last_write_seen sched then received
                              else removelast received) None), sent').
Proof.
  intros Hplan Hrun. split.
  - apply run_fetchers_sent in Hrun as [_ Hlen]. rewrite Hlen.
    apply Permutation_length, arrival_Permutation. reflexivity.
  - rewrite (download_spawn Do fuel sched f u N L sent rs Hplan), Hrun.
    rewrite drain_last. reflexivity.
Qed.

Lemma X9_download_returns_the_last_result_witness :
  List.length
    [None; None;
     Some "bad response code: 500 while reading bytes 0 through 0"] =
    List.length [mkRange 0 0; mkRange 1 1; mkRange 2 2] /\
  download Examples.first_range_fails 4 (mkSchedule [1%nat; 1%nat] true)
           (bufferWriterAt.mk (make 3 3)) "u" 3 3 [] =
    Returned ((bufferWriterAt.mk (mkSlice [Byte.x00; Byte.x07; Byte.x07] 3),
               List.last (if last_write_seen (mkSchedule [1%nat; 1%nat] true)
                          then [None; None;
                                Some "bad response code: 500 while reading bytes 0 through 0"]
                          else removelast
                                 [None; None;
                                  Some "bad response code: 500 while reading bytes 0 through 0"])
                         None),
              [mkRequest "GET" "u" [("Range", "bytes=1-1")];
               mkRequest "GET" "u" [("Range", "bytes=2-2")];
               mkRequest "GET" "u" [("Range", "bytes=0-0")]]).
Proof.
  apply (X9_download_returns_the_last_result Examples.first_range_fails 4
           (mkSchedule [1%nat; 1%nat] true) (bufferWriterAt.mk (make 3 3)) "u" 3 3 []
           [mkRange 0 0; mkRange 1 1; mkRange 2 2]);
    vm_compute; reflexivity.
Defined.

(** X10: the probe always returns after sending exactly one HEAD request;
    the length it reports is never negative, and is 0 whenever it reports
    an error. *)
Theorem X10_probe_length_is_never_negative
    (Do : Request -> reply) (u : string) (sent : list Request) :
  exists n err,
    getContentLength Do u sent =
      Returned ((n, err), sent ++ [mkRequest "HEAD" u []]) /\
    0 <= n /\ (err <> None -> n = 0).
Proof.
  unfold getContentLength, bind, send, ret.
  destruct (Do _) as [e|resp]; [eexists _, _; repeat split; auto; lia|].
  destruct (Z.eqb_spec (StatusCode resp) 200); simpl;
    [|eexists _, _; repeat split; auto; lia].
  destruct (String.eqb (header_get (Header resp) "Accept-Ranges") "bytes"); simpl;
    [|eexists _, _; repeat split; auto; lia].
  destruct (Z.ltb_spec (ContentLength resp) 0);
    eexists _, _; repeat split; auto; try lia; congruence.
Qed.

(** ** Saving to a file *)

Section SavingFacts.
Context {W : Type} `{WriterAt W}.
Variable Do : Request -> reply.
Variable Dir : string -> string.
Variable MkdirAll : string -> option error.
Variable Create : string -> error + W.

(** [Save] with one thread, when it gets as far as the download, sends the
    HEAD request and one GET without headers. *)
Lemma Save_single_sent fuel sched u path sent calls f' err sent' :
  Save Do Dir MkdirAll Create fuel sched u path 1 sent =
    Returned ((calls, Some f', err), sent') ->
  sent' = sent ++ [mkRequest "HEAD" u []; mkRequest "GET" u []].
Proof.
  unfold Save. unfold bind at 1.
  destruct (getContentLength Do u sent) as [[[L e0] s1]| |] eqn:Hprobe;
    try discriminate.
  apply getContentLength_sent in Hprobe. subst s1.
  destruct e0 as [e|]; [discriminate|].
  destruct (MkdirAll (Dir path)) as [e|]; [discriminate|].
  destruct (Create path) as [e|f]; [discriminate|].
  unfold bind.
  rewrite (download_direct Do fuel sched f u 1 L _ (mkRange 0 (-1)))
    by (apply plan_single; lia).
  destruct (getRange _ _ _ _ _ _ _) as [[[f1 e1] s2]| |] eqn:Hget; try discriminate.
  unfold ret. intros [= <- <- <- <-].
  apply getRange_sent in Hget. subst s2. rewrite <- app_assoc. reflexivity.
Qed.
End SavingFacts.

(** X11: whatever [Save] returns, it has touched the file system only after
    a probe without error, has asked for the directory before the file, and
    when no file was created it returns an error without having sent any
    GET. *)
Theorem X11_Save_reaches_the_disk_only_after_the_probe {W : Type} `{WriterAt W}
    (Do : Request -> reply) (Dir : string -> string)
    (MkdirAll : string -> option error) (Create : string -> error + W)
    (fuel : nat) (sched : schedule) (u path : string) (threads : Z)
    (sent : list Request) (calls : list fs_call) (file : option W)
    (err : option error) (sent' : list Request) :
  Save Do Dir MkdirAll Create fuel sched u path threads sent =
    Returned ((calls, file, err), sent') ->
  (calls = [] \/ calls = [CallMkdirAll (Dir path)] \/
   calls = [CallMkdirAll (Dir path); CallCreate path]) /\
  (calls <> [] ->
     exists L, getContentLength Do u sent =
                 Returned ((L, None), sent ++ [mkRequest "HEAD" u []])) /\
  (file = None -> err <> None /\ sent' = sent ++ [mkRequest "HEAD" u []]) /\
  (file <> None ->
     calls = [CallMkdirAll (Dir path); CallCreate path] /\
     MkdirAll (Dir path) = None).
Proof.
  unfold Save. unfold bind at 1.
  destruct (getContentLength Do u sent) as [[[L e0] s1]| |] eqn:Hprobe;
    try discriminate.
  pose proof (getContentLength_sent _ _ _ _ _ Hprobe) as ->.
  destruct e0 as [e|].
  { unfold ret. intros [= <- <- <- <-]. repeat split; auto; congruence. }
  destruct (MkdirAll (Dir path)) as [e|] eqn:Hmk.
  { unfold ret. intros [= <- <- <- <-]. repeat split; eauto; congruence. }
  destruct (Create path) as [e|f] eqn:Hcr.
  { unfold ret. intros [= <- <- <- <-]. repeat split; eauto; congruence. }
  unfold bind.
  destruct (download _ _ _ _ _ _ _ _) as [[[f1 e1] s2]| |]; try discriminate.
  unfold ret. intros [= <- <- <- <-]. repeat split; eauto; congruence.
Qed.

Lemma X11_Save_reaches_the_disk_only_after_the_probe_witness :
  ([CallMkdirAll (Served.dir_of "p")] = [] \/
   [CallMkdirAll (Served.dir_of "p")] = [CallMkdirAll (Served.dir_of "p")] \/
   [CallMkdirAll (Served.dir_of "p")] =
     [CallMkdirAll (Served.dir_of "p"); CallCreate "p"]) /\
  ([CallMkdirAll (Served.dir_of "p")] <> [] ->
     exists L, getContentLength Served.with_ranges "u" [] =
                 Returned ((L, None), [] ++ [mkRequest "HEAD" "u" []])) /\
  ((None : option bufferWriterAt.t) = None ->
     Some "permission denied" <> None /\
     [mkRequest "HEAD" "u" []] = [] ++ [mkRequest "HEAD" "u" []]) /\
  ((None : option bufferWriterAt.t) <> None ->
     [CallMkdirAll (Served.dir_of "p")] =
       [CallMkdirAll (Served.dir_of "p"); CallCreate "p"] /\
     Served.mkdir_denied (Served.dir_of "p") = None).
Proof.
  apply (X11_Save_reaches_the_disk_only_after_the_probe Served.with_ranges
           Served.dir_of Served.mkdir_denied Served.create_ok
           3 (mkSchedule [] true) "u" "p" 2 []).
  vm_compute. reflexivity.
Defined.

(** X12: with zero threads both entry points still probe and then fail
    without sending any GET: [Get] returns a buffer of the probed length,
    all zero, with the error, and [Save] has by then created the directory
    and the file, which it leaves as created. *)
Theorem X12_zero_threads_after_the_probe {W : Type} `{WriterAt W}
    (Do : Request -> reply) (Dir : string -> string)
    (MkdirAll : string -> option error) (Create : string -> error + W)
    (fuel : nat) (sched : schedule) (u path : string)
    (sent sent1 : list Request) (L : Z) :
  let refused :=
    "cannot download " +:+ dquote +:+ u +:+ dquote
    +:+ " download using " +:+ pretty 0 +:+ " threads" in
  getContentLength Do u sent = Returned ((L, None), sent1) ->
  Get Do fuel sched u 0 sent =
    Returned ((Some (if L =? 0 then make 0 MaxInt32 else make L L), Some refused),
              sent ++ [mkRequest "HEAD" u []]) /\
  (forall f, MkdirAll (Dir path) = None -> Create path = inr f ->
     Save Do Dir MkdirAll Create fuel sched u path 0 sent =
       Returned (([CallMkdirAll (Dir path); CallCreate path], Some f, Some refused),
                 sent ++ [mkRequest "HEAD" u []])).
Proof.
  intros refused Hprobe.
  pose proof (getContentLength_sent _ _ _ _ _ Hprobe) as ->. split.
  - rewrite (Get_after_probe Do fuel sched u 0 sent L _ Hprobe).
    unfold download, lift, bind, plan. simpl. unfold ret.
    destruct (L =? 0); reflexivity.
  - intros f Hmk Hcr. unfold Save. unfold bind at 1. rewrite Hprobe, Hmk, Hcr.
    unfold download, lift, bind, plan. simpl. reflexivity.
Qed.

Lemma X12_zero_threads_after_the_probe_witness :
  Get Served.with_ranges 3 (mkSchedule [] true) "u" 0 [] =
    Returned ((Some (if 2 =? 0 then make 0 MaxInt32 else make 2 2),
               Some ("cannot download " +:+ dquote +:+ "u" +:+ dquote
                     +:+ " download using " +:+ pretty 0 +:+ " threads")),
              [] ++ [mkRequest "HEAD" "u" []]) /\
  (forall f, Served.mkdir_ok (Served.dir_of "p") = None ->
     Served.create_ok "p" = inr f ->
     Save Served.with_ranges Served.dir_of Served.mkdir_ok Served.create_ok
          3 (mkSchedule [] true) "u" "p" 0 [] =
       Returned (([CallMkdirAll (Served.dir_of "p"); CallCreate "p"], Some f,
                  Some ("cannot download " +:+ dquote +:+ "u" +:+ dquote
                        +:+ " download using " +:+ pretty 0 +:+ " threads")),
                 [] ++ [mkRequest "HEAD" "u" []])).
Proof.
  apply (X12_zero_threads_after_the_probe Served.with_ranges
           Served.dir_of Served.mkdir_ok Served.create_ok
           3 (mkSchedule [] true) "u" "p" [] [mkRequest "HEAD" "u" []] 2).
  vm_compute. reflexivity.
Defined.

(** X13: the thread count [GetFile] hands to [Save] is between 0 and 255,
    so its conversion to a byte changes nothing; when the fragment of the
    URL does not parse, or parses to more than 255, it is 1, and the
    download, if the file gets created, is the HEAD request followed by one
    GET without headers. *)
Theorem X13_GetFile_thread_count {W : Type} `{WriterAt W}
    (Do : Request -> reply) (Dir : string -> string)
    (MkdirAll : string -> option error) (Create : string -> error + W)
    (ParseUint : string -> Z * option error)
    (fuel : nat) (sched : schedule) (dst u fragment : string)
    (sent : list Request) :
  0 <= fst (ParseUint fragment) ->
  0 <= fragment_threads ParseUint fragment <= 255 /\
  GetFile Do Dir MkdirAll Create ParseUint fuel sched dst u fragment sent =
    Save Do Dir MkdirAll Create fuel sched u dst
         (fragment_threads ParseUint fragment) sent /\
  (snd (ParseUint fragment) <> None \/ 255 < fst (ParseUint fragment) ->
     fragment_threads ParseUint fragment = 1 /\
     forall calls f' err sent',
       GetFile Do Dir MkdirAll Create ParseUint fuel sched dst u fragment sent =
         Returned ((calls, Some f', err), sent') ->
       sent' = sent ++ [mkRequest "HEAD" u []; mkRequest "GET" u []]).
Proof.
  intros Hpos.
  assert (Hrange : 0 <= fragment_threads ParseUint fragment <= 255).
  { unfold fragment_threads. destruct (ParseUint fragment) as [t [e|]]; simpl in *.
    - lia.
    - destruct (Z.gtb_spec t 255); lia. }
  assert (Hget : GetFile Do Dir MkdirAll Create ParseUint fuel sched dst u fragment sent =
                 Save Do Dir MkdirAll Create fuel sched u dst
                      (fragment_threads ParseUint fragment) sent).
  { unfold GetFile. rewrite Z.mod_small by lia. reflexivity. }
  split; [exact Hrange|]. split; [exact Hget|].
  intros Hdefault.
  assert (Hone : fragment_threads ParseUint fragment = 1).
  { unfold fragment_threads. destruct (ParseUint fragment) as [t [e|]]; simpl in *.
    - reflexivity.
    - destruct Hdefault as [Hd|Hd]; [congruence|].
      destruct (Z.gtb_spec t 255); [reflexivity | lia]. }
  split; [exact Hone|].
  intros calls f' err sent'. rewrite Hget, Hone. apply Save_single_sent.
Qed.

Lemma X13_GetFile_thread_count_witness :
  0 <= fragment_threads Served.parse_fails "x" <= 255 /\
  GetFile Served.without_ranges Served.dir_of Served.mkdir_ok Served.create_ok
          Served.parse_fails 3 (mkSchedule [] true) "p" "u" "x" [] =
    Save Served.without_ranges Served.dir_of Served.mkdir_ok Served.create_ok
         3 (mkSchedule [] true) "u" "p" (fragment_threads Served.parse_fails "x") [] /\
  (snd (Served.parse_fails "x") <> None \/ 255 < fst (Served.parse_fails "x") ->
     fragment_threads Served.parse_fails "x" = 1 /\
     forall calls f' err sent',
       GetFile Served.without_ranges Served.dir_of Served.mkdir_ok Served.create_ok
               Served.parse_fails 3 (mkSchedule [] true) "p" "u" "x" [] =
         Returned ((calls, Some f', err), sent') ->
       sent' = [] ++ [mkRequest "HEAD" "u" []; mkRequest "GET" "u" []]).
Proof.
  apply (X13_GetFile_thread_count Served.without_ranges Served.dir_of
           Served.mkdir_ok Served.create_ok Served.parse_fails
           3 (mkSchedule [] true) "p" "u" "x" []).
  simpl. lia.
Defined.

(** ** The join, in general *)

Lemma last_elem (l : list (option error)) :
  List.last l None = None \/ List.last l None ∈ l.
Proof.
  induction l as [|e [|e' l] IH]; [left; reflexivity | right; left |].
  destruct IH as [IH|IH]; [left; exact IH | right; right; exact IH].
Qed.

Lemma removelast_elem (l : list (option error)) (x : option error) :
  x ∈ removelast l -> x ∈ l.
Proof.
  induction l as [|e [|e' l] IH]; simpl; intros Hx; [inversion Hx | inversion Hx |].
  apply elem_of_cons in Hx as [->|Hx]; [left | right; apply IH; exact Hx].
Qed.

(** X14: with several fetchers, the error [download] returns is one that
    some fetcher returned, and when every fetcher returned nil it returns
    nil, whatever the order in which they finished. *)
Theorem X14_download_error_comes_from_a_fetcher {W : Type} `{WriterAt W}
    (Do : Request -> reply) (fuel : nat) (sched : schedule) (f : W) (u : string)
    (N L : Z) (sent : list Request) (rs : list Range)
    (f' : W) (received : list (option error)) (sent' : list Request) :
  plan fuel N L = Returned (Spawn rs) ->
  run_fetchers Do fuel f u (arrival (List.length rs) (picks sched) rs) sent =
    Returned ((f', received), sent') ->
  exists err,
    download Do fuel sched f u N L sent = Returned ((f', err), sent') /\
    (Forall (fun e => e = None) received -> err = None) /\
    (forall e, err = Some e -> Some e ∈ received).
Proof.
  intros Hplan Hrun.
  rewrite (download_spawn Do fuel sched f u N L sent rs Hplan), Hrun.
  eexists. split; [reflexivity|]. split.
  - apply drain_all_nil.
  - intros e He. rewrite drain_last in He.
    destruct (last_write_seen sched).
    + destruct (last_elem received) as [Hl|Hl]; [congruence|].
      rewrite He in Hl. exact Hl.
    + destruct (last_elem (removelast received)) as [Hl|Hl]; [congruence|].
      rewrite He in Hl. apply removelast_elem. exact Hl.
Qed.

Lemma X14_download_error_comes_from_a_fetcher_witness :
  exists err,
    download Examples.last_range_fails 4 (mkSchedule [] true)
             (bufferWriterAt.mk (make 2 2)) "u" 2 2 [] =
      Returned ((bufferWriterAt.mk (mkSlice [Byte.x07; Byte.x00] 2), err),
                [mkRequest "GET" "u" [("Range", "bytes=0-0")];
                 mkRequest "GET" "u" [("Range", "bytes=1-1")]]) /\
    (Forall (fun e => e = None)
            [None; Some "bad response code: 500 while reading bytes 1 through 1"] ->
     err = None) /\
    (forall e, err = Some e ->
       Some e ∈ [None; Some "bad response code: 500 while reading bytes 1 through 1"]).
Proof.
  apply (X14_download_error_comes_from_a_fetcher Examples.last_range_fails 4
           (mkSchedule [] true) (bufferWriterAt.mk (make 2 2)) "u" 2 2 []
           [mkRange 0 0; mkRange 1 1]);
    vm_compute; reflexivity.
Defined.
